(** * Query-to-metric mapping engine of the openGauss exporter

    A shallow embedding of [collector/utils/utils.go] (the type coercion
    layer, [RecoverErr], [DecodeByte]) and of the collector core
    ([getMetric], [procRows], [newMetric], [decode]), with the properties
    the specification states about them. *)

From Stdlib Require Import ZArith List Bool Lia.
From Stdlib Require Import Strings.String Strings.Ascii Strings.Byte.
From Stdlib Require Import Numbers.DecimalString Numbers.DecimalZ Numbers.DecimalPos.
From Stdlib Require Import Floats.SpecFloat.
From Stdlib Require Import NArith Numbers.DecimalFacts.
From stdpp Require Import base option list gmap strings.

Local Open Scope Z_scope.
Local Open Scope string_scope.

(** ** Go values as they come out of [database/sql] *)

(** [float64]: IEEE-754 binary64 values (precision 53, emax 1024). *)
Definition float64 : Type := spec_float.

Definition NaN : float64 := S754_nan.

(** The conversion [float64(v)] of an [int64]: round to nearest, ties to
    even. *)
Definition float64_of_int64 (v : Z) : float64 :=
  binary_normalize 53 1024 v 0 false.

(** The literals [1.0] and [0.0]. *)
Definition float64_one : float64 := S754_finite false 4503599627370496 (-52).
Definition float64_zero : float64 := S754_zero false.


(** What the code observes of a [time.Time]: [Unix()], [Nanosecond()] and
    the zone offset that [Format] prints. *)
Record Time : Type := mkTime
  { Unix : Z;          (* seconds since the epoch, an int64 *)
    Nanosecond : Z;    (* offset within the second, in [0, 999999999] *)
    ZoneOffset : Z }.  (* seconds east of UTC *)

(** The dynamic type of an [interface{}] column value: the cases of the
    type switches of [DbToFloat64] and [DbToString], and [VOther] for every
    other dynamic type (it carries how [fmt] prints the value). *)
Inductive value : Type :=
| VInt64 (v : Z)
| VFloat64 (v : float64)
| VTime (v : Time)
| VBytes (v : list byte)
| VString (v : string)
| VBool (v : bool)
| VNil
| VOther (printed : string).

(** Go [error] values: what [errors.New] and [fmt.Errorf] build, and the
    errors of the libraries. *)
Inductive error : Type :=
| errors_New (text : string).

Definition Error (e : error) : string :=
  match e with errors_New text => text end.

(** The value a [panic] carries, as the type switch of [RecoverErr] sees
    it: an [error], or anything else (with its [%#v] rendering). With
    go 1.21 a recovered value is never nil while panicking. *)
Inductive panic_value : Type :=
| PanicError (e : error)
| PanicOther (printed : string).

(** A computation that returns normally or panics. *)
Inductive outcome (A : Type) : Type :=
| Normal (a : A)
| Panic (p : panic_value).
Arguments Normal {A} a.
Arguments Panic {A} p.

#[global] Instance outcome_ret : MRet outcome := fun A a => Normal a.
#[global] Instance outcome_bind : MBind outcome := fun A B f m =>
  match m with
  | Normal a => f a
  | Panic p => Panic p
  end.

(** ** Library functions the code calls

    The Go standard library, [golang.org/x/text], [database/sql] and the
    Prometheus client are not part of the repository: their functions are
    the fields of these interfaces. *)
Class GoLib : Type := mkGoLib
  { (* strconv.ParseFloat(s, 64); [None] when err != nil *)
    ParseFloat : string -> option float64;
    (* fmt.Sprintf("%v", f) for a float64 *)
    FormatFloat : float64 -> string;
    (* t.Format(time.RFC3339Nano) *)
    FormatRFC3339Nano : Time -> string;
    (* t.String(), what fmt prints for a time.Time *)
    FormatTime : Time -> string;
    (* strings.EqualFold *)
    EqualFold : string -> string -> bool;
    (* strings.Map(unicode.ToUpper, s), the path of strings.ToUpper for a
       string that is not pure ASCII *)
    ToUpperUnicode : string -> string;
    (* utf8.ValidString *)
    ValidString : string -> bool;
    (* ianaindex.MIB.Encoding(name) *)
    Encoding : Type;
    MIB_Encoding : string -> Encoding + error;
    (* ioutil.ReadAll(transform.NewReader(bytes.NewReader(b), enc.NewDecoder())) *)
    ReadAllDecoded : Encoding -> list byte -> list byte + error }.

(** [prometheus.ValueType] *)
Inductive ValueType : Type := CounterValue | GaugeValue | UntypedValue.

(** [prometheus.Labels] *)
Abbreviation Labels := (gmap string string).

Class Prometheus : Type := mkPrometheus
  { Desc : Type;       (* *prometheus.Desc *)
    Metric : Type;     (* prometheus.Metric *)
    (* prometheus.MustNewConstMetric: panics where NewConstMetric fails *)
    MustNewConstMetric :
      Desc -> ValueType -> float64 -> list string -> outcome Metric }.

(** One [*sql.Rows] cursor: what [Columns()] returns (nil when it fails,
    the code drops its error) and the driver's rows in the order [Next]
    yields them, [None] for a row whose [Scan] fails in the driver. *)
Record Rows : Type := mkRows
  { rows_Columns : list string;
    rows_data : list (option (list value)) }.

(** The three results of [db.QueryContext] the code tells apart. *)
Inductive QueryResult : Type :=
| QueryErr (err : error)
| QueryNil
| QueryRows (rows : Rows).

Class Sql : Type := mkSql
  { DB : Type;         (* the server behind *sql.DB *)
    QueryContext : DB -> string -> DB * QueryResult }.

(** ** fmt verbs the code uses, on integers and byte slices *)

(** [%v] and [%d] of a signed integer. *)
Definition Sprint_int (v : Z) : string := NilZero.string_of_int (Z.to_int v).

Fixpoint zeros (n : nat) : string :=
  match n with
  | O => ""
  | S n => String "0" (zeros n)
  end.

(** [%03d]: zero padding to width 3, the sign counted in the width. *)
Definition Sprint_03d (v : Z) : string :=
  let digits := Sprint_int (Z.abs v) in
  if (v <? 0)%Z
  then "-" +:+ zeros (2 - String.length digits) +:+ digits
  else zeros (3 - String.length digits) +:+ digits.

Fixpoint join_space (l : list string) : string :=
  match l with
  | [] => ""
  | [x] => x
  | x :: rest => x +:+ " " +:+ join_space rest
  end.

(** [%v] of a [[]byte]: the bytes in decimal between brackets. *)
Definition Sprint_bytes (b : list byte) : string :=
  "[" +:+ join_space (map (fun c => Sprint_int (Z.of_N (Byte.to_N c))) b) +:+ "]".

(** ** utils.go: the type coercion layer *)

Section Coercion.
Context `{GoLib}.

(** [DbToFloat64] *)
Definition DbToFloat64 (t : value) : float64 * bool :=
  match t with
  | VInt64 v => (float64_of_int64 v, true)
  | VFloat64 v => (v, true)
  | VTime v => (float64_of_int64 (Unix v), true)
  | VBytes v =>
      let strV := string_of_list_byte v in
      match ParseFloat strV with
      | None => (NaN, false)
      | Some result => (result, true)
      end
  | VString v =>
      match ParseFloat v with
      | None => (NaN, false)
      | Some result => (result, true)
      end
  | VBool v => if v then (float64_one, true) else (float64_zero, true)
  | VNil => (NaN, true)
  | VOther _ => (NaN, false)
  end.

(** [DbToString] *)
Definition DbToString (t : value) (time2string : bool) : string * bool :=
  match t with
  | VInt64 v => (Sprint_int v, true)
  | VFloat64 v => (FormatFloat v, true)
  | VTime v =>
      if time2string then (FormatRFC3339Nano v, true)
      else (Sprint_int (Unix v) +:+ Sprint_03d (Nanosecond v ÷ 1000000), true)
  | VNil => ("", true)
  | VBytes v => (string_of_list_byte v, true)
  | VString v => (v, true)
  | VBool v => if v then ("true", true) else ("false", true)
  | VOther _ => ("", false)
  end.

(** [fmt]'s [%v] of a column value. *)
Definition Sprint_value (t : value) : string :=
  match t with
  | VInt64 v => Sprint_int v
  | VFloat64 v => FormatFloat v
  | VTime v => FormatTime v
  | VBytes v => Sprint_bytes v
  | VString v => v
  | VBool v => if v then "true" else "false"
  | VNil => "<nil>"
  | VOther printed => printed
  end.

(** [RecoverErr(&err)], run as a deferred call: [e] is what [recover()]
    returns ([None] when the function is not panicking), [err] the
    caller's named result; the new value of [*err] is returned. *)
Definition RecoverErr (e : option panic_value) (err : option error) : option error :=
  match e with
  | None => err
  | Some (PanicError v) => Some v
  | Some (PanicOther printed) => Some (errors_New ("unexpected error: " +:+ printed))
  end.

(** [strings.ToUpper]: bytes are mapped one by one when the string is
    pure ASCII, runes through [unicode.ToUpper] otherwise. *)
Definition isASCII (s : string) : bool :=
  forallb (fun c => (nat_of_ascii c <? 128)%nat) (list_ascii_of_string s).

Definition upper_byte (c : ascii) : ascii :=
  let n := nat_of_ascii c in
  if ((97 <=? n) && (n <=? 122))%nat then ascii_of_nat (n - 32) else c.

Definition ToUpper (s : string) : string :=
  if isASCII s
  then string_of_list_ascii (map upper_byte (list_ascii_of_string s))
  else ToUpperUnicode s.

Definition UTF8 : string := "UTF8".
Definition UTF8Underline : string := "UTF-8".
Definition GBK : string := "GBK".
Definition GB18030 : string := "GB18030".

Definition CharSetMap : gmap string string :=
  <[GB18030 := GBK]> (<[GBK := GBK]> (<[UTF8 := UTF8Underline]> ∅)).

(** [GetMapCharset] *)
Definition GetMapCharset (s : string) : string :=
  match CharSetMap !! ToUpper s with
  | Some o => o
  | None => s
  end.

(** [DecodeByte] *)
Definition DecodeByte (b : list byte) (charset : string) : list byte * option error :=
  let charset := GetMapCharset charset in
  match MIB_Encoding charset with
  | inr err => (b, Some err)
  | inl gbkEnc =>
      match ReadAllDecoded gbkEnc b with
      | inr err => (b, Some err)
      | inl tmp => (tmp, None)
      end
  end.

End Coercion.

(** ** The [config] package *)

(** [config.GaussDBConnectConfig], the fields the collector reads. *)
Record GaussDBConnectConfig : Type := mkGaussDBConnectConfig
  { Address : string;
    Port : Z }.

(** Modelled from the spec: one SQL statement variant of a definition,
    independently enabled or disabled. The struct is declared in a part
    of package [config] that the collector sources do not include;
    [getMetric] reads its [SQL] and [Status]. *)
Record Query : Type := mkQuery
  { SQL : string;
    Status : string }.

(** Modelled from the spec: the Column Descriptor [config.Column], declared
    in the same missing part of package [config]; the fields are the ones
    [newMetric] and [decode] read: the usage role, the discard and
    histogram marks, the UTF-8 check flag and the pre-built sample
    descriptor with its value type. *)
Record Column `{Prometheus} : Type := mkColumn
  { Usage : string;
    DisCard : bool;
    Histogram : bool;
    CheckUTF8 : bool;
    PrometheusDesc : Desc;
    PrometheusType : ValueType }.

(** Modelled from the spec: the Query Definition [config.QueryInstance],
    declared in the same missing part of package [config]: name, statement
    variants, ordered label column names, the database-name label column
    and the mapping from column name to Column Descriptor. *)
Record QueryInstance `{Prometheus} : Type := mkQueryInstance
  { Name : string;
    Queries : list Query;
    LabelNames : list string;
    DBNameLabel : string;
    Columns : gmap string Column }.

(** ** Slices and maps as Go reads them *)

Definition index_out_of_range (i len : nat) : error :=
  errors_New ("runtime error: index out of range [" +:+ Sprint_int (Z.of_nat i)
              +:+ "] with length " +:+ Sprint_int (Z.of_nat len)).

(** [s[i]]: a run-time panic out of range. *)
Definition index {A : Type} (s : list A) (i : nat) : outcome A :=
  match s !! i with
  | Some x => Normal x
  | None => Panic (PanicError (index_out_of_range i (length s)))
  end.

(** [m[k]] on a [map[string]int]: the zero value for an absent key. *)
Definition map_index (m : gmap string nat) (k : string) : nat :=
  default 0%nat (m !! k).

(** [fmt.Sprintln] of four operands: a space between operands, a newline
    at the end. *)
Definition Sprintln4 (a b c d : string) : string :=
  a +:+ " " +:+ b +:+ " " +:+ c +:+ " " +:+ d +:+ String "010" "".

(** ** The collector: [decode], [newMetric], [procRows], [getMetric] *)

Section Collector.
Context `{GoLib} `{Prometheus} `{Sql}.

(** The package-level [config.MonitDB]. *)
Variable MonitDB : GaussDBConnectConfig.

(** The constant [config.MappedMETRIC], declared with [config.Column]: the
    usage role of mapped metrics. *)
Variable MappedMETRIC : string.

(** The method [GetColumn] of [QueryInstance], declared with it: it
    resolves the descriptor declared for a column name, [None] for the nil
    pointer. *)
Variable GetColumn : QueryInstance -> string -> Labels -> option Column.

(** [prometheus.Labels{"server": fmt.Sprintf("%s:%d", config.MonitDB.Address, config.MonitDB.Port)}] *)
Definition serverLabels : Labels :=
  {[ "server" := Address MonitDB +:+ ":" +:+ Sprint_int (Port MonitDB) ]}.

(** [decode] *)
Definition decode (queryInstance : QueryInstance) (data : value)
    (label dbName : string) : string * option error :=
  let v := fst (DbToString data false) in
  match GetColumn queryInstance label serverLabels with
  | None => (v, None)
  | Some col =>
      if negb (CheckUTF8 col) then (v, None)
      else if ValidString v then (v, None)
      else if String.eqb dbName "" then ("", None)
      else
        match DecodeByte (list_byte_of_string v) "UTF8" with
        | (_, Some err) => ("", None)
        | (b, None) => (string_of_list_byte b, None)
        end
  end.

(** [newMetric]. The deferred [RecoverErr(&err)] is registered once the
    value is coerced: it sees the panic of [MustNewConstMetric], when the
    named result [metric] is still nil, or runs after [return metric, nil]. *)
Definition newMetric (queryInstance : QueryInstance) (col : option Column)
    (columnName : string) (colValue : value) (labels : list string)
    : option Metric * option error :=
  let metricName := Name queryInstance in
  match col with
  | None => (None, None)
  | Some col =>
      if DisCard col then (None, None)
      else if Histogram col then (None, None)
      else if EqualFold (Usage col) MappedMETRIC then (None, None)
      else
        let desc := PrometheusDesc col in
        let valueType := PrometheusType col in
        let '(value, valueOK) := DbToFloat64 colValue in
        if negb valueOK
        then (None, Some (errors_New (Sprintln4 "Unexpected error parsing column: "
                                       metricName columnName (Sprint_value colValue))))
        else
          match MustNewConstMetric desc valueType value labels with
          | Normal metric => (Some metric, RecoverErr None None)
          | Panic p => (None, RecoverErr (Some p) None)
          end
  end.

(** The second loop of [procRows], over the column names: [idx] counts the
    columns done, [metrics] and [nonfatalErrors] are the slices appended
    to. *)
Fixpoint procColumns (queryInstance : QueryInstance) (columnNames : list string)
    (idx : nat) (columnData : list value) (labels : list string)
    (metrics : list Metric) (nonfatalErrors : list error)
    : outcome (list Metric * list error) :=
  match columnNames with
  | [] => Normal (metrics, nonfatalErrors)
  | columnName :: rest =>
      let col := GetColumn queryInstance columnName serverLabels in
      colValue ← index columnData idx;
      match newMetric queryInstance col columnName colValue labels with
      | (_, Some err) =>
          procColumns queryInstance rest (S idx) columnData labels
            metrics (nonfatalErrors ++ [err])
      | (Some metric, None) =>
          procColumns queryInstance rest (S idx) columnData labels
            (metrics ++ [metric]) nonfatalErrors
      | (None, None) =>
          procColumns queryInstance rest (S idx) columnData labels
            metrics nonfatalErrors
      end
  end.

(** The database name of a row: [""] unless [DBNameLabel] is set. *)
Definition procDBName (queryInstance : QueryInstance)
    (columnIdx : gmap string nat) (columnData : list value) : outcome string :=
  let dbNameLabel := DBNameLabel queryInstance in
  if negb (String.eqb dbNameLabel "")
  then v ← index columnData (map_index columnIdx dbNameLabel);
       mret (fst (DbToString v true))
  else mret "".

(** The first loop of [procRows]: the label values, in the order of
    [LabelNames]; the error of [decode] is only logged. *)
Definition procLabels (queryInstance : QueryInstance)
    (columnIdx : gmap string nat) (columnData : list value) (dbName : string)
    : outcome (list string) :=
  mapM (fun label =>
          data ← index columnData (map_index columnIdx label);
          let '(v, err) := decode queryInstance data label dbName in
          mret v)
       (LabelNames queryInstance).

(** [procRows] *)
Definition procRows (queryInstance : QueryInstance) (columnNames : list string)
    (columnIdx : gmap string nat) (columnData : list value)
    : outcome (list Metric * list error) :=
  dbName ← procDBName queryInstance columnIdx columnData;
  labels ← procLabels queryInstance columnIdx columnData dbName;
  procColumns queryInstance columnNames 0 columnData labels [] [].

(** [rows.Scan] into [len(columnNames)] destinations: it fails when the
    driver's row has another number of columns. *)
Definition Scan (dests : nat) (row : option (list value)) : option (list value) :=
  match row with
  | Some vs => if decide (length vs = dests) then Some vs else None
  | None => None
  end.

(** The loop [for rows.Next()] of [getMetric]: it stops at the first row
    that does not scan. *)
Fixpoint scanRows (dests : nat) (data : list (option (list value)))
    (list_ : list (list value)) : list (list value) :=
  match data with
  | [] => list_
  | row :: rest =>
      match Scan dests row with
      | None => list_
      | Some columnData => scanRows dests rest (list_ ++ [columnData])
      end
  end.

(** The loop of [getMetric] over the statements of the definition. *)
Fixpoint runQueries (db : DB) (queries : list Query)
    (columnNames : list string) (list_ : list (list value))
    : DB * list string * list (list value) :=
  match queries with
  | [] => (db, columnNames, list_)
  | query :: rest =>
      if String.eqb (Status query) "disable"
      then runQueries db rest columnNames list_
      else
        let '(db, res) := QueryContext db (SQL query) in
        match res with
        | QueryErr err => runQueries db rest columnNames list_
        | QueryNil => runQueries db rest columnNames list_
        | QueryRows rows =>
            let columnNames := rows_Columns rows in
            runQueries db rest columnNames
              (scanRows (length columnNames) (rows_data rows) list_)
        end
  end.

(** The lookup map of [getMetric]: [columnIdx[n] = i] for every [i, n]. *)
Fixpoint makeColumnIdx (columnNames : list string) (i : nat)
    (columnIdx : gmap string nat) : gmap string nat :=
  match columnNames with
  | [] => columnIdx
  | n :: rest => makeColumnIdx rest (S i) (<[n := i]> columnIdx)
  end.

(** The last loop of [getMetric], over the collected rows. *)
Fixpoint procList (queryInstance : QueryInstance) (columnNames : list string)
    (columnIdx : gmap string nat) (list_ : list (list value))
    (metrics : list Metric) : outcome (list Metric) :=
  match list_ with
  | [] => Normal metrics
  | columnData :: rest =>
      '(metric, errs) ← procRows queryInstance columnNames columnIdx columnData;
      procList queryInstance columnNames columnIdx rest (metrics ++ metric)
  end.

(** [getMetric]: the server after the statements ran, and the samples
    (or the panic that ends the call). *)
Definition getMetric (db : DB) (queryInstance : QueryInstance)
    : DB * outcome (list Metric) :=
  let '(db, columnNames, list_) := runQueries db (Queries queryInstance) [] [] in
  let columnIdx := makeColumnIdx columnNames 0 ∅ in
  (db, procList queryInstance columnNames columnIdx list_ []).

(** *** The row processor in the words of the specification *)

(** The database name of a row, read at the index the map gives. *)
Definition rowDBName (queryInstance : QueryInstance)
    (columnIdx : gmap string nat) (columnData : list value) : string :=
  if String.eqb (DBNameLabel queryInstance) "" then ""
  else fst (DbToString
              (nth (map_index columnIdx (DBNameLabel queryInstance)) columnData VNil)
              true).

(** The label values of a row, in the declared label order. *)
Definition rowLabels (queryInstance : QueryInstance)
    (columnIdx : gmap string nat) (columnData : list value) (dbName : string)
    : list string :=
  map (fun label =>
         fst (decode queryInstance
                (nth (map_index columnIdx label) columnData VNil) label dbName))
      (LabelNames queryInstance).

(** What each column of a row contributes, column by column: the result
    of [newMetric] on the column's descriptor and value. *)
Definition rowOutcomes (queryInstance : QueryInstance) (columnNames : list string)
    (columnData : list value) (labels : list string)
    : list (option Metric * option error) :=
  map (fun nv : string * value =>
         newMetric queryInstance
           (GetColumn queryInstance nv.1 serverLabels) nv.1 nv.2 labels)
      (zip columnNames columnData).

(** The declared label columns (and the database-name column, when one is
    declared) are read inside the row. *)
Definition labels_resolvable (queryInstance : QueryInstance)
    (columnIdx : gmap string nat) (columnData : list value) : Prop :=
  (DBNameLabel queryInstance <> "" ->
   (map_index columnIdx (DBNameLabel queryInstance) < length columnData)%nat) /\
  Forall (fun label => (map_index columnIdx label < length columnData)%nat)
         (LabelNames queryInstance).

(** A descriptor [newMetric] goes on to coerce: not discarded, not a
    histogram, not of mapped-metric usage. *)
Definition eligible (col : Column) : Prop :=
  DisCard col = false /\ Histogram col = false /\
  EqualFold (Usage col) MappedMETRIC = false.

(** The error [RecoverErr] leaves for a recovered panic value. *)
Definition recovered (p : panic_value) : error :=
  match p with
  | PanicError e => e
  | PanicOther printed => errors_New ("unexpected error: " +:+ printed)
  end.

End Collector.

(** ** A concrete library and a concrete definition

    Small instances of the interfaces above, to run the collector on
    concrete rows: a number parser for signed decimal integers, ASCII case
    folding, the UTF-8 well-formedness test, constant metrics as records and
    a scripted server that logs the statements it receives. *)

Module Sample.

Fixpoint parse_digits (s : string) (acc : Z) : option Z :=
  match s with
  | EmptyString => Some acc
  | String c rest =>
      let n := nat_of_ascii c in
      if ((48 <=? n) && (n <=? 57))%nat
      then parse_digits rest (10 * acc + Z.of_nat (n - 48))
      else None
  end.

Definition parse_unsigned (s : string) : option Z :=
  match s with
  | EmptyString => None
  | _ => parse_digits s 0
  end.

(** Signed decimal integers only. *)
Definition ParseFloat (s : string) : option float64 :=
  match s with
  | String "-" rest => (fun z => float64_of_int64 (- z)) <$> parse_unsigned rest
  | String "+" rest => float64_of_int64 <$> parse_unsigned rest
  | _ => float64_of_int64 <$> parse_unsigned s
  end.

Definition FormatFloat (f : float64) : string :=
  match f with
  | S754_zero false => "0"
  | S754_zero true => "-0"
  | S754_infinity false => "+Inf"
  | S754_infinity true => "-Inf"
  | S754_nan => "NaN"
  | S754_finite s m e =>
      (if s then "-" else "") +:+ Sprint_int (Z.pos m) +:+ "p" +:+ Sprint_int e
  end.

(** Whole seconds since the epoch, for UTC only. *)
Definition FormatRFC3339Nano (t : Time) : string :=
  "@" +:+ Sprint_int (Unix t) +:+ "." +:+ Sprint_int (Nanosecond t) +:+ "Z".

Definition cont (b : nat) : bool := ((128 <=? b) && (b <=? 191))%nat.

(** Well-formed UTF-8 byte sequences (Unicode, table 3-7). *)
Fixpoint utf8_valid (l : list nat) : bool :=
  match l with
  | [] => true
  | b0 :: t0 =>
      if (b0 <? 128)%nat then utf8_valid t0
      else
        match t0 with
        | [] => false
        | b1 :: t1 =>
            if ((194 <=? b0) && (b0 <=? 223))%nat then cont b1 && utf8_valid t1
            else
              match t1 with
              | [] => false
              | b2 :: t2 =>
                  if ((224 <=? b0) && (b0 <=? 239))%nat
                  then
                    (if (b0 =? 224)%nat then ((160 <=? b1) && (b1 <=? 191))%nat
                     else if (b0 =? 237)%nat then ((128 <=? b1) && (b1 <=? 159))%nat
                     else cont b1)
                    && cont b2 && utf8_valid t2
                  else
                    match t2 with
                    | [] => false
                    | b3 :: t3 =>
                        if ((240 <=? b0) && (b0 <=? 244))%nat
                        then
                          (if (b0 =? 240)%nat then ((144 <=? b1) && (b1 <=? 191))%nat
                           else if (b0 =? 244)%nat then ((128 <=? b1) && (b1 <=? 143))%nat
                           else cont b1)
                          && cont b2 && cont b3 && utf8_valid t3
                        else false
                    end
              end
        end
  end.

Definition ValidString (s : string) : bool :=
  utf8_valid (map nat_of_ascii (list_ascii_of_string s)).

Definition upper_ascii (s : string) : string :=
  string_of_list_ascii (map upper_byte (list_ascii_of_string s)).

Inductive Encoding : Type := EncUTF8 | EncGBK.

Definition MIB_Encoding (name : string) : Encoding + error :=
  if String.eqb name "UTF-8" then inl EncUTF8
  else if String.eqb name "GBK" then inl EncGBK
  else inr (errors_New "ianaindex: invalid encoding name").

(** The UTF-8 decoder keeps ASCII bytes and writes U+FFFD for any other
    byte; no GBK table is at hand. *)
Definition ReadAllDecoded (enc : Encoding) (b : list byte) : list byte + error :=
  match enc with
  | EncUTF8 =>
      inl (flat_map (fun c => if (Byte.to_N c <? 128)%N then [c]
                              else [xef; xbf; xbd]%byte) b)
  | EncGBK => inr (errors_New "gbk: no decoder table")
  end.

#[export] Instance lib : GoLib :=
  mkGoLib ParseFloat FormatFloat FormatRFC3339Nano FormatRFC3339Nano
    (fun s t => String.eqb (upper_ascii s) (upper_ascii t))
    upper_ascii ValidString Encoding MIB_Encoding ReadAllDecoded.

(** [prometheus.Desc] and the constant metric built from it. *)
Record Desc : Type := mkDesc
  { fqName : string;
    help : string;
    variableLabels : list string;
    constLabels : Labels }.

Record Metric : Type := mkMetric
  { desc : Desc;
    valType : ValueType;
    val : float64;
    labelValues : list string }.

(** [NewConstMetric] refuses a wrong number of label values and a label
    value that is not UTF-8; [MustNewConstMetric] panics with that error. *)
Definition MustNewConstMetric (d : Desc) (t : ValueType) (v : float64)
    (labels : list string) : outcome Metric :=
  if negb (length labels =? length (variableLabels d))%nat
  then Panic (PanicError (errors_New "inconsistent label cardinality"))
  else if negb (forallb Sample.ValidString labels)
  then Panic (PanicError (errors_New "label value is not valid UTF-8"))
  else Normal (mkMetric d t v labels).

#[export] Instance prom : Prometheus :=
  mkPrometheus Desc Metric MustNewConstMetric.

(** A scripted server: the answer to each statement text, and the log of
    the statements received. *)
Record DB : Type := mkDB
  { answers : string -> QueryResult;
    received : list string }.

Definition QueryContext (db : DB) (sql : string) : DB * QueryResult :=
  (mkDB (answers db) (received db ++ [sql]), answers db sql).

#[export] Instance sql : Sql := mkSql DB QueryContext.

Definition MonitDB : GaussDBConnectConfig := mkGaussDBConnectConfig "127.0.0.1" 5432.

Definition MappedMETRIC : string := "MAPPEDMETRIC".

(** Modelled from the spec: [GetColumn] looks up the descriptor declared
    under the exact column name and attaches the server-identity labels to
    its constant labels. *)
Definition GetColumn (q : QueryInstance) (colName : string)
    (serverLabels : Labels) : option Column :=
  (fun col =>
     let d := PrometheusDesc col in
     mkColumn _ (Usage col) (DisCard col) (Histogram col) (CheckUTF8 col)
       (mkDesc (fqName d) (help d) (variableLabels d) (serverLabels ∪ constLabels d))
       (PrometheusType col))
  <$> Columns q !! colName.

(** The definition of the specification's scenario, with one more
    counter column: statement columns [datname], [numbackends] and
    [xact_commit], label column [datname]. *)
Definition numbackends_desc : Desc :=
  mkDesc "pg_database_numbackends" "connected backends" ["datname"] ∅.

Definition xact_commit_desc : Desc :=
  mkDesc "pg_database_xact_commit" "committed transactions" ["datname"] ∅.

Definition pg_database_columns : gmap string Column :=
  <["datname" := mkColumn prom "LABEL" true false true numbackends_desc UntypedValue]>
  (<["numbackends" := mkColumn prom "GAUGE" false false false numbackends_desc GaugeValue]>
   (<["xact_commit" := mkColumn prom "COUNTER" false false false xact_commit_desc CounterValue]> ∅)).

Definition select_main : string :=
  "SELECT datname, numbackends, xact_commit FROM pg_stat_database".

Definition select_standby : string :=
  "SELECT numbackends, datname, xact_commit FROM pg_stat_database_standby".

Definition select_old : string := "SELECT datname FROM pg_database".

Definition pg_database : QueryInstance :=
  mkQueryInstance prom "pg_database"
    [mkQuery select_old "disable"; mkQuery select_main "enable"]
    ["datname"] "" pg_database_columns.

Definition pg_database_columnNames : list string :=
  ["datname"; "numbackends"; "xact_commit"].

(** The same columns read by two statements that order them differently. *)
Definition pg_database_two : QueryInstance :=
  mkQueryInstance prom "pg_database"
    [mkQuery select_main "enable"; mkQuery select_standby "enable"]
    ["datname"] "" pg_database_columns.

(** A definition whose descriptor expects two label values while one label
    column is declared. *)
Definition pg_mismatch : QueryInstance :=
  mkQueryInstance prom "pg_mismatch" [mkQuery select_main "enable"] ["datname"] ""
    (<["numbackends" :=
         mkColumn prom "GAUGE" false false false
           (mkDesc "pg_mismatch_numbackends" "connected backends"
              ["datname"; "state"] ∅) GaugeValue]> ∅).

(** A definition whose statements are all disabled. *)
Definition pg_disabled : QueryInstance :=
  mkQueryInstance prom "pg_disabled"
    [mkQuery select_main "disable"; mkQuery select_standby "disable"]
    ["datname"] "" pg_database_columns.

Definition server : DB :=
  mkDB (fun sql =>
          if String.eqb sql select_main
          then QueryRows (mkRows ["datname"; "numbackends"; "xact_commit"]
                            [Some [VString "postgres"; VInt64 3; VInt64 7]])
          else if String.eqb sql select_standby
          then QueryRows (mkRows ["numbackends"; "datname"; "xact_commit"]
                            [Some [VInt64 5; VString "standby"; VInt64 9]])
          else QueryErr (errors_New "pq: relation does not exist"))
       [].

(** Rows of the first statement: a good one, and one whose second column
    is not a number. *)
Definition row_good : list value := [VString "postgres"; VInt64 3; VInt64 7].
Definition row_bad : list value := [VString "postgres"; VString "N/A"; VInt64 7].

Definition pg_database_columnIdx : gmap string nat :=
  makeColumnIdx pg_database_columnNames 0 ∅.

(** The descriptor [GetColumn] resolves for [numbackends]. *)
Definition numbackends_col : Column :=
  mkColumn prom "GAUGE" false false false
    (mkDesc "pg_database_numbackends" "connected backends" ["datname"]
       (serverLabels MonitDB ∪ ∅)) GaugeValue.

Definition mismatch_col : Column :=
  mkColumn prom "GAUGE" false false false
    (mkDesc "pg_mismatch_numbackends" "connected backends" ["datname"; "state"]
       (serverLabels MonitDB ∪ ∅)) GaugeValue.

(** A row of the second statement, which puts [numbackends] first. *)
Definition row_standby : list value := [VInt64 5; VString "standby"; VInt64 9].

End Sample.

(** ** The definition as a shared object

    [procRows] receives a pointer to the definition, and [GetColumn] has a
    pointer receiver: here the definition is threaded through the calls,
    [GetColumn] returning the definition as it leaves it. *)

Module Shared.
Section Shared.
Context `{GoLib} `{Prometheus}.
Variable MonitDB : GaussDBConnectConfig.
Variable MappedMETRIC : string.
Variable GetColumn :
  QueryInstance -> string -> Labels -> option Column * QueryInstance.

(** [decode] *)
Definition decode (queryInstance : QueryInstance) (data : value)
    (label dbName : string) : (string * option error) * QueryInstance :=
  let v := fst (DbToString data false) in
  let '(col, queryInstance) := GetColumn queryInstance label (serverLabels MonitDB) in
  match col with
  | None => ((v, None), queryInstance)
  | Some col =>
      if negb (CheckUTF8 col) then ((v, None), queryInstance)
      else if ValidString v then ((v, None), queryInstance)
      else if String.eqb dbName "" then (("", None), queryInstance)
      else
        match DecodeByte (list_byte_of_string v) "UTF8" with
        | (_, Some err) => (("", None), queryInstance)
        | (b, None) => ((string_of_list_byte b, None), queryInstance)
        end
  end.

(** The first loop of [procRows], over the label names read when the loop
    starts. *)
Fixpoint procLabels (queryInstance : QueryInstance) (labelNames : list string)
    (columnIdx : gmap string nat) (columnData : list value) (dbName : string)
    : outcome (list string) * QueryInstance :=
  match labelNames with
  | [] => (Normal [], queryInstance)
  | label :: rest =>
      match index columnData (map_index columnIdx label) with
      | Panic p => (Panic p, queryInstance)
      | Normal data =>
          let '((v, err), queryInstance) := decode queryInstance data label dbName in
          let '(r, queryInstance) :=
            procLabels queryInstance rest columnIdx columnData dbName in
          (labels ← r; mret (v :: labels), queryInstance)
      end
  end.

(** The second loop of [procRows]. *)
Fixpoint procColumns (queryInstance : QueryInstance) (columnNames : list string)
    (idx : nat) (columnData : list value) (labels : list string)
    (metrics : list Metric) (nonfatalErrors : list error)
    : outcome (list Metric * list error) * QueryInstance :=
  match columnNames with
  | [] => (Normal (metrics, nonfatalErrors), queryInstance)
  | columnName :: rest =>
      let '(col, queryInstance) :=
        GetColumn queryInstance columnName (serverLabels MonitDB) in
      match index columnData idx with
      | Panic p => (Panic p, queryInstance)
      | Normal colValue =>
          match newMetric MappedMETRIC queryInstance col columnName colValue labels with
          | (_, Some err) =>
              procColumns queryInstance rest (S idx) columnData labels
                metrics (nonfatalErrors ++ [err])
          | (Some metric, None) =>
              procColumns queryInstance rest (S idx) columnData labels
                (metrics ++ [metric]) nonfatalErrors
          | (None, None) =>
              procColumns queryInstance rest (S idx) columnData labels
                metrics nonfatalErrors
          end
      end
  end.

(** [procRows]: the samples and errors (or the panic), and the definition
    as the call leaves it. *)
Definition procRows (queryInstance : QueryInstance) (columnNames : list string)
    (columnIdx : gmap string nat) (columnData : list value)
    : outcome (list Metric * list error) * QueryInstance :=
  match procDBName queryInstance columnIdx columnData with
  | Panic p => (Panic p, queryInstance)
  | Normal dbName =>
      match procLabels queryInstance (LabelNames queryInstance)
              columnIdx columnData dbName with
      | (Panic p, queryInstance) => (Panic p, queryInstance)
      | (Normal labels, queryInstance) =>
          procColumns queryInstance columnNames 0 columnData labels [] []
      end
  end.

(** The descriptor [GetColumn] resolves, the definition left aside. *)
Definition resolved (q : QueryInstance) (colName : string)
    (serverLabels : Labels) : option Column :=
  (GetColumn q colName serverLabels).1.

(** Modelled from the spec: the body of [GetColumn], missing with the
    declaration of [config.QueryInstance]. The specification has it look
    the descriptor up by the exact column name, and has definitions and
    descriptors read-only during a scrape: the call hands the definition
    back as it received it. *)
Definition read_only : Prop :=
  forall q colName serverLabels, (GetColumn q colName serverLabels).2 = q.

End Shared.
End Shared.

(** ** The words of the specification *)

(** The input kinds of the coercion contracts. *)
Inductive kind : Type :=
| KInteger | KFloat | KTimestamp | KBytes | KText | KBoolean | KNull | KUnknown.

Definition kind_of (t : value) : kind :=
  match t with
  | VInt64 _ => KInteger
  | VFloat64 _ => KFloat
  | VTime _ => KTimestamp
  | VBytes _ => KBytes
  | VString _ => KText
  | VBool _ => KBoolean
  | VNil => KNull
  | VOther _ => KUnknown
  end.


(** A value [database/sql] can hand over: an [int64] in range, a time
    whose nanoseconds are below one second. *)
Definition valid_value (t : value) : Prop :=
  match t with
  | VInt64 v => - 2 ^ 63 <= v < 2 ^ 63
  | VTime v => - 2 ^ 63 <= Unix v < 2 ^ 63 /\ 0 <= Nanosecond v < 1000000000
  | _ => True
  end.

(** The decimal digit [d] as a character. *)
Definition digit (d : Z) : ascii := ascii_of_nat (48 + Z.to_nat d).

(** Three decimal digits of a number below 1000. *)
Definition three_digits (m : Z) : string :=
  String (digit (m / 100)) (String (digit (m / 10 mod 10)) (String (digit (m mod 10)) "")).

(** What one column of a row contributes: the code appends the error when
    there is one, else the sample when there is one. *)
Definition samples_of {M : Type} (o : option M * option error) : list M :=
  match o with
  | (Some m, None) => [m]
  | _ => []
  end.

Definition errors_of {M : Type} (o : option M * option error) : list error :=
  match o with
  | (_, Some e) => [e]
  | _ => []
  end.

(** A statement variant runs unless its status is ["disable"]. *)
Definition enabled (query : Query) : bool :=
  negb (String.eqb (Status query) "disable").

(** Running statement texts one after the other on the server. *)
Fixpoint execAll `{Sql} (db : DB) (sqls : list string) : DB * list QueryResult :=
  match sqls with
  | [] => (db, [])
  | sql :: rest =>
      let '(db, res) := QueryContext db sql in
      let '(db, results) := execAll db rest in
      (db, res :: results)
  end.

(** The rows one statement contributes: the rows of its cursor up to the
    first one that does not scan; nothing when it failed. *)
Definition rows_of (res : QueryResult) : list (list value) :=
  match res with
  | QueryRows rows => scanRows (length (rows_Columns rows)) (rows_data rows) []
  | _ => []
  end.

(** The column names of the last statement that returned a cursor, none
    when no statement did. *)
Fixpoint lastColumns (results : list QueryResult) (columnNames : list string)
    : list string :=
  match results with
  | [] => columnNames
  | QueryRows rows :: rest => lastColumns rest (rows_Columns rows)
  | _ :: rest => lastColumns rest columnNames
  end.

(** The last position of a name in a list of column names. *)
Fixpoint lastIndex (n : string) (columnNames : list string) (i : nat) : option nat :=
  match columnNames with
  | [] => None
  | m :: rest =>
      match lastIndex n rest (S i) with
      | Some j => Some j
      | None => if String.eqb m n then Some i else None
      end
  end.

(** The cursors among the results all return the column names [cols]. *)
Definition same_columns (cols : list string) (results : list QueryResult) : Prop :=
  forall rows, In (QueryRows rows) results -> rows_Columns rows = cols.

(** ** utils.go: helpers on slices and strings *)

(** The loop of [SafeDereference]; [zeroValue] is the zero value of [T]. *)
Fixpoint SafeDereference_loop {T : Type} (zeroValue : T) (s : list (option T))
    (resolved : list T) : list T :=
  match s with
  | [] => resolved
  | v :: rest =>
      match v with
      | Some x => SafeDereference_loop zeroValue rest (resolved ++ [x])
      | None => SafeDereference_loop zeroValue rest (resolved ++ [zeroValue])
      end
  end.

(** [SafeDereference]: [None] is the nil pointer. *)
Definition SafeDereference {T : Type} (zeroValue : T) (s : list (option T)) : list T :=
  SafeDereference_loop zeroValue s [].

(** The Unicode paths of [strings.TrimSpace], taken when a byte outside
    ASCII is met. *)
Class GoUnicode : Type := mkGoUnicode
  { (* strings.TrimFunc(s, unicode.IsSpace) *)
    TrimFunc_IsSpace : string -> string;
    (* strings.TrimRightFunc(s, unicode.IsSpace) *)
    TrimRightFunc_IsSpace : string -> string }.

(** The table [asciiSpace] of package [strings]: tab, newline, vertical
    tab, form feed, carriage return, space. *)
Definition asciiSpace (c : ascii) : bool :=
  let n := nat_of_ascii c in
  (((9 <=? n) && (n <=? 13)) || (n =? 32))%nat.

(** One scan of [strings.TrimSpace] over the bytes: it stops at the first
    byte that is not an ASCII space, and tells whether that byte is
    outside ASCII. *)
Fixpoint skipSpace (s : list ascii) : bool * list ascii :=
  match s with
  | [] => (false, [])
  | c :: rest =>
      if (128 <=? nat_of_ascii c)%nat then (true, s)
      else if asciiSpace c then skipSpace rest
      else (false, s)
  end.

(** [strings.TrimSpace]: the scan from the start, then the scan from the
    end. *)
Definition TrimSpace `{GoUnicode} (s : string) : string :=
  let '(unicode, rest) := skipSpace (list_ascii_of_string s) in
  if unicode then TrimFunc_IsSpace (string_of_list_ascii rest)
  else
    let '(unicode, kept) := skipSpace (rev rest) in
    if unicode then TrimRightFunc_IsSpace (string_of_list_ascii (rev kept))
    else string_of_list_ascii (rev kept).

(** [strings.Split(s, sep)] for a separator of one byte. *)
Fixpoint Split (s : string) (sep : ascii) : list string :=
  match s with
  | EmptyString => [EmptyString]
  | String c rest =>
      if Ascii.eqb c sep then EmptyString :: Split rest sep
      else
        match Split rest sep with
        | piece :: pieces => String c piece :: pieces
        | [] => [String c EmptyString]
        end
  end.

Section Parsing.
Context `{GoUnicode}.

(** The loop of [parseCSV] over the parts. *)
Fixpoint parseCSV_loop (parts : list string) (tags : list string) : list string :=
  match parts with
  | [] => tags
  | p :: rest =>
      let tag := TrimSpace p in
      if (0 <? String.length tag)%nat
      then parseCSV_loop rest (tags ++ [tag])
      else parseCSV_loop rest tags
  end.

(** [parseCSV]; the nil slice is the empty list. *)
Definition parseCSV (s : string) : list string :=
  let s := TrimSpace s in
  if (String.length s =? 0)%nat then []
  else
    let parts := Split s "," in
    let tags := parseCSV_loop parts [] in
    if (length tags =? 0)%nat then [] else tags.

(** The loop of [parseConstLabels] over the parts. *)
Fixpoint parseConstLabels_loop (parts : list string) (labels : Labels) : Labels :=
  match parts with
  | [] => labels
  | p :: rest =>
      let keyValue := Split (TrimSpace p) "=" in
      match keyValue with
      | [k; v] =>
          let key := TrimSpace k in
          let value := TrimSpace v in
          if String.eqb key "" || String.eqb value ""
          then parseConstLabels_loop rest labels
          else parseConstLabels_loop rest (<[key := value]> labels)
      | _ => parseConstLabels_loop rest labels
      end
  end.

(** [parseConstLabels]; [None] is the nil map. *)
Definition parseConstLabels (s : string) : option Labels :=
  let s := TrimSpace s in
  if (String.length s =? 0)%nat then None
  else
    let parts := Split s "," in
    let labels := parseConstLabels_loop parts ∅ in
    if (size labels =? 0)%nat then None else Some labels.

End Parsing.

(** *** Words for the properties of the parsers *)

(** [String.concat] of the Standard Library is [strings.Join]. *)
Definition Join (elems : list string) (sep : string) : string :=
  String.concat sep elems.

Definition contains_byte (c : ascii) (s : string) : bool :=
  existsb (Ascii.eqb c) (list_ascii_of_string s).

(** An ASCII byte that is no space. *)
Definition edge_byte (c : ascii) : bool :=
  (nat_of_ascii c <? 128)%nat && negb (asciiSpace c).

(** A string that starts and ends with an ASCII byte that is no space. *)
Definition trimmed (s : string) : bool :=
  match list_ascii_of_string s with
  | [] => false
  | c :: rest => edge_byte c && edge_byte (List.last rest c)
  end.

(** A key or a value that parses back: trimmed, without comma or equals
    sign. *)
Definition plain (s : string) : Prop :=
  trimmed s = true /\ contains_byte "," s = false /\ contains_byte "=" s = false.

(** ** utils.go: the release number of a GaussDB kernel *)

(** The class [\d] of package [regexp]: the ASCII digits. *)
Definition isDigit (c : ascii) : bool :=
  let n := nat_of_ascii c in ((48 <=? n) && (n <=? 57))%nat.

(** The longest run of digits at the start of [s], and what follows it. *)
Fixpoint digitRun (s : string) : string * string :=
  match s with
  | EmptyString => ("", "")
  | String c rest =>
      if isDigit c
      then let '(d, r) := digitRun rest in (String c d, r)
      else ("", s)
  end.

(** A match of [(\d+)R(\d+)C(\d+)] that starts at the first byte of [s]:
    the whole match and the three groups. Each [\d+] is greedy and is
    followed by a byte that is no digit, so it takes the whole run. *)
Definition releaseRe_matchHere (s : string) : option (list string) :=
  let '(g1, r) := digitRun s in
  if String.eqb g1 "" then None
  else
    match r with
    | String "R" r =>
        let '(g2, r) := digitRun r in
        if String.eqb g2 "" then None
        else
          match r with
          | String "C" r =>
              let '(g3, _) := digitRun r in
              if String.eqb g3 "" then None
              else Some [g1 +:+ "R" +:+ g2 +:+ "C" +:+ g3; g1; g2; g3]
          | _ => None
          end
    | _ => None
    end.

(** [regexp.MustCompile(`(\d+)R(\d+)C(\d+)`).FindStringSubmatch(s)]: the
    leftmost match, nil when there is none. *)
Fixpoint releaseRe_FindStringSubmatch (s : string) : list string :=
  match releaseRe_matchHere s with
  | Some r => r
  | None =>
      match s with
      | EmptyString => []
      | String _ rest => releaseRe_FindStringSubmatch rest
      end
  end.

(** The number a string of digits stands for, read after [n]. *)
Fixpoint digitsValue (s : string) (n : Z) : option Z :=
  match s with
  | EmptyString => Some n
  | String c rest =>
      if isDigit c
      then digitsValue rest (n * 10 + (Z.of_nat (nat_of_ascii c) - 48))
      else None
  end.

(** The number [strconv.Atoi] returns, with an [int] of 64 bits: 0 where
    the syntax is wrong, the nearest bound where the number is out of
    range. The code drops the error. *)
Definition Atoi (s : string) : Z :=
  let '(neg, digits) :=
    match s with
    | String "-" rest => (true, rest)
    | String "+" rest => (false, rest)
    | _ => (false, s)
    end in
  match digits with
  | EmptyString => 0
  | _ =>
      match digitsValue digits 0 with
      | None => 0
      | Some n => if neg then Z.max (- 2 ^ 63) (- n) else Z.min (2 ^ 63 - 1) n
      end
  end%Z.

(** [parseGaussDBVersion] *)
Definition parseGaussDBVersion (subMatches : list string) : outcome string :=
  if (length subMatches <? 3)%nat then mret ""
  else
    m2 ← index subMatches 2;
    if String.eqb m2 "" then mret ""
    else
      let r := releaseRe_FindStringSubmatch m2 in
      if (length r <? 3)%nat then mret ""
      else
        s1 ← index r 1;
        let r1 := Atoi s1 in
        s2 ← index r 2;
        let r2 := Atoi s2 in
        s3 ← index r 3;
        let r3 := Atoi s3 in
        mret (Sprint_int r1 +:+ "." +:+ Sprint_int r2 +:+ "." +:+ Sprint_int r3).

(** *** Words for the properties of the release number *)

Definition all_digits (s : string) : bool :=
  forallb isDigit (list_ascii_of_string s).

Definition starts_with_digit (s : string) : bool :=
  match s with
  | String c _ => isDigit c
  | EmptyString => false
  end.

Definition has_digit (s : string) : bool :=
  existsb isDigit (list_ascii_of_string s).

(** ** config: the loader of definitions *)

(** [*config.QueryInstance] as [LoadConfig] reads and writes it: the field
    [Priority], an [int]; [D] is the rest of the structure. *)
Record Loaded (D : Type) : Type := mkLoaded
  { Priority : Z;
    Rest : D }.
Arguments mkLoaded {D}.
Arguments Priority {D}.
Arguments Rest {D}.

(** What [os.Stat], [ioutil.ReadDir] and [ioutil.ReadFile] find at a path:
    nothing, a directory that cannot be listed, a directory with its
    entries in the order of [ReadDir] (the name of an entry, its [IsDir],
    and what is found at the path of the entry), or a file with its
    [stat.Name()] and what [ReadFile] returns. *)
Inductive Found : Type :=
| NotFound (err : error)
| Unreadable (err : error)
| Dir (files : list DirEntry)
| File (name : string) (content : list byte + error)
with DirEntry : Type :=
| mkDirEntry (name : string) (isDir : bool) (at_path : Found).

(** [strings.HasSuffix] *)
Definition HasSuffix (s suffix : string) : bool :=
  (String.length suffix <=? String.length s)%nat
  && String.eqb (substring (String.length s - String.length suffix)
                   (String.length suffix) s) suffix.

Section Loader.
Context {D : Type}.
(* path.Join *)
Variable path_Join : string -> string -> string.
(* ParseConfig(content, path); it goes through yaml.Unmarshal and through
   the method Check of the definitions *)
Variable ParseConfig : list byte -> string -> gmap string (Loaded D) + error.

(** The body of the inner loop of [LoadConfig]: a priority that is not set
    becomes the rank of the file. *)
Definition setRank (configCount : Z) (query : Loaded D) : Loaded D :=
  if (Priority query =? 0)%Z then mkLoaded (100 + configCount) (Rest query)
  else query.

(** The second loop of the directory case, over what the recursive calls
    return: [configCount] is at most the number of files. *)
Fixpoint mergeLoop (confFiles : list (gmap string (Loaded D) + error))
    (queries : gmap string (Loaded D)) (configCount : Z)
    : gmap string (Loaded D) :=
  match confFiles with
  | [] => queries
  | inr err :: rest => mergeLoop rest queries configCount
  | inl singleQueries :: rest =>
      let configCount := configCount + 1 in
      mergeLoop rest
        (map_fold (fun name query queries =>
                     <[name := setRank configCount query]> queries)
           queries singleQueries)
        configCount
  end.

(** The test of the first loop of the directory case. *)
Definition skipped (name : string) (isDir : bool) : bool :=
  negb (HasSuffix name ".yaml") && negb isDir.

(** [LoadConfig]: the first loop of the directory case keeps the entries
    that are not skipped, the second one merges what the recursive calls
    on them return. *)
Fixpoint LoadConfig (configPath : string) (found : Found)
    : gmap string (Loaded D) + error :=
  match found with
  | NotFound err =>
      inr (errors_New ("invalid config path: " +:+ configPath +:+ ": " +:+ Error err))
  | Unreadable err =>
      inr (errors_New ("fail reading config dir: " +:+ configPath +:+ ": "
                       +:+ Error err))
  | Dir files =>
      let confFiles :=
        List.filter (fun conf => negb (fst conf))
          (map (fun conf =>
                  let '(mkDirEntry name isDir at_path) := conf in
                  (skipped name isDir,
                   LoadConfig (path_Join configPath name) at_path))
               files) in
      inl (mergeLoop (map snd confFiles) ∅ 0)
  | File name content =>
      match content with
      | inr err =>
          inr (errors_New ("fail reading config file " +:+ configPath +:+ ": "
                           +:+ Error err))
      | inl content =>
          match ParseConfig content name with
          | inr err => inr err
          | inl queries => inl queries
          end
      end
  end.

(** The maps of the entries of a directory that are not skipped and that
    load, in the order of the entries. *)
Definition loadedFiles (configPath : string) (files : list DirEntry)
    : list (gmap string (Loaded D)) :=
  omap (fun conf =>
          let '(mkDirEntry name isDir at_path) := conf in
          if skipped name isDir then None
          else match LoadConfig (path_Join configPath name) at_path with
               | inl singleQueries => Some singleQueries
               | inr _ => None
               end)
       files.

(** The maps among the results of the recursive calls. *)
Definition oks (confFiles : list (gmap string (Loaded D) + error))
    : list (gmap string (Loaded D)) :=
  omap (fun r => match r with inl m => Some m | inr _ => None end) confFiles.

End Loader.


(** ** More concrete data

    A server whose two statements return rows of different widths, the
    Unicode paths of [TrimSpace] for the strings of the runs, which are
    ASCII and never take them, and a directory of definition files. *)

Module Scenarios.
Import Sample.

#[export] Instance unicode : GoUnicode :=
  mkGoUnicode (fun s => s) (fun s => s).

(** The definition with its older statement enabled as well. *)
Definition pg_database_old : QueryInstance :=
  mkQueryInstance prom "pg_database"
    [mkQuery select_old "enable"; mkQuery select_main "enable"]
    ["datname"] "" pg_database_columns.

(** A server that answers the older statement too, with one column. *)
Definition server_old : DB :=
  mkDB (fun sql =>
          if String.eqb sql select_old
          then QueryRows (mkRows ["datname"] [Some [VString "postgres"]])
          else answers server sql)
       [].

(** Definition files: the content [1] declares [pg] without a priority
    and [pg_lock] with priority 50, the content [2] declares [pg] without
    a priority, any other content is malformed. *)
Definition parse_sample (content : list byte) (name : string)
    : gmap string (Loaded string) + error :=
  match content with
  | [x31%byte] =>
      inl (<["pg" := mkLoaded 0 "first"]> (<["pg_lock" := mkLoaded 50 "first"]> ∅))
  | [x32%byte] => inl (<["pg" := mkLoaded 0 "second"]> ∅)
  | _ => inr (errors_New "malformed config: yaml: unmarshal errors")
  end.

Definition join_sample (dir name : string) : string := dir +:+ "/" +:+ name.

(** A directory with a definition file, a file that is no YAML file, a
    malformed file and a second definition file. *)
Definition conf_dir : Found :=
  Dir [mkDirEntry "a.yaml" false (File "a.yaml" (inl [x31%byte]));
       mkDirEntry "b.txt" false (File "b.txt" (inl [x32%byte]));
       mkDirEntry "c.yaml" false (File "c.yaml" (inl []));
       mkDirEntry "d.yaml" false (File "d.yaml" (inl [x32%byte]))].

End Scenarios.

(** * Properties *)

(** ** The type coercion layer *)

Section CoercionProperties.
Context `{GoLib}.

(** *** The conversion of integers to float64

    Below 2^53 in magnitude the mantissa is only shifted to 53 digits and
    nothing is rounded away. *)

Local Open Scope Z_scope.







Local Open Scope string_scope.


(** [Sprint_int] writes a decimal numeral: reading it back gives the
    integer. *)
Lemma Sprint_int_decimal (v : Z) :
  option_map Z.of_int (NilZero.int_of_string (Sprint_int v)) = Some v.
Proof.
  unfold Sprint_int.
  destruct v as [|p|p]; [reflexivity| |].
  - rewrite NilZero.isi.
    + simpl option_map. f_equal. apply (DecimalZ.of_to (Z.pos p)).
    + simpl. intros [= Hp]. now apply Unsigned.to_uint_nonnil in Hp.
    + discriminate.
  - rewrite NilZero.isi.
    + simpl option_map. f_equal. apply (DecimalZ.of_to (Z.neg p)).
    + discriminate.
    + simpl. intros [= Hp]. now apply Unsigned.to_uint_nonnil in Hp.
Qed.

(** [%03d] of a number of milliseconds is its three decimal digits. *)
Lemma Sprint_03d_three_digits (m : Z) :
  0 <= m < 1000 -> Sprint_03d m = three_digits m.
Proof.
  intros Hm.
  assert (Hall : forallb (fun n => String.eqb (Sprint_03d (Z.of_nat n))
                                      (three_digits (Z.of_nat n)))
                         (seq 0 1000) = true) by (vm_compute; reflexivity).
  rewrite forallb_forall in Hall.
  specialize (Hall (Z.to_nat m)).
  rewrite Z2Nat.id in Hall by lia.
  apply String.eqb_eq, Hall, in_seq. lia.
Qed.

Lemma millis_range (ns : Z) :
  0 <= ns < 1000000000 -> 0 <= ns ÷ 1000000 < 1000.
Proof.
  intros Hns. rewrite Z.quot_div_nonneg by lia.
  split; [apply Z.div_pos; lia | apply Z.div_lt_upper_bound; lia].
Qed.

(** C7. [DbToString] follows the kind-by-kind contract: integers and
    floats are printed in decimal, a timestamp in the RFC3339 layout with
    nanoseconds when [time2string] is set and else as its Unix seconds
    followed by the three digits of its milliseconds, null is the empty
    string, bytes are the string of the same bytes, text is itself, a
    boolean is true or false, all with ok = true; any other kind gives the
    empty string with ok = false. *)
Theorem DbToString_contract :
  (forall v b, DbToString (VInt64 v) b = (Sprint_int v, true)
               /\ option_map Z.of_int
                    (NilZero.int_of_string (fst (DbToString (VInt64 v) b))) = Some v) /\
  (forall v b, DbToString (VFloat64 v) b = (FormatFloat v, true)) /\
  (forall v, DbToString (VTime v) true = (FormatRFC3339Nano v, true)) /\
  (forall v, valid_value (VTime v) ->
     DbToString (VTime v) false
     = (Sprint_int (Unix v) +:+ three_digits (Nanosecond v / 1000000), true)) /\
  (forall b, DbToString VNil b = ("", true)) /\
  (forall v b, DbToString (VBytes v) b = (string_of_list_byte v, true)
               /\ list_byte_of_string (fst (DbToString (VBytes v) b)) = v) /\
  (forall v b, DbToString (VString v) b = (v, true)) /\
  (forall b, DbToString (VBool true) b = ("true", true)) /\
  (forall b, DbToString (VBool false) b = ("false", true)) /\
  (forall t b, kind_of t = KUnknown -> DbToString t b = ("", false)) /\
  (forall t b, snd (DbToString t b) = false <-> kind_of t = KUnknown).
Proof.
  repeat split; try reflexivity.
  - simpl. apply Sprint_int_decimal.
  - intros v [_ Hns]. simpl.
    rewrite Sprint_03d_three_digits by (apply millis_range; exact Hns).
    rewrite Z.quot_div_nonneg by lia. reflexivity.
  - simpl. apply list_byte_of_string_of_list_byte.
  - intros [] b0 Hk; simpl in Hk; try discriminate; reflexivity.
  - destruct t as [v|v|v|v|v|[]| |p], b; simpl; try discriminate; reflexivity.
  - destruct t; simpl; try discriminate; reflexivity.
Qed.

End CoercionProperties.

(** ** The collector *)

Local Open Scope list_scope.

Section CollectorProperties.
Context `{GoLib} `{Prometheus} `{Sql}.
Variable MonitDB : GaussDBConnectConfig.
Variable MappedMETRIC : string.
Variable GetColumn : QueryInstance -> string -> Labels -> option Column.

Local Abbreviation decode := (decode MonitDB GetColumn).
Local Abbreviation newMetric := (newMetric MappedMETRIC).
Local Abbreviation procColumns := (procColumns MonitDB MappedMETRIC GetColumn).
Local Abbreviation procLabels := (procLabels MonitDB GetColumn).
Local Abbreviation procRows := (procRows MonitDB MappedMETRIC GetColumn).
Local Abbreviation procList := (procList MonitDB MappedMETRIC GetColumn).
Local Abbreviation getMetric := (getMetric MonitDB MappedMETRIC GetColumn).
Local Abbreviation rowLabels := (rowLabels MonitDB GetColumn).
Local Abbreviation rowOutcomes := (rowOutcomes MonitDB MappedMETRIC GetColumn).
Local Abbreviation eligible := (eligible MappedMETRIC).
Local Abbreviation serverLabels := (serverLabels MonitDB).

Lemma index_lookup {A : Type} (s : list A) (i : nat) (x : A) :
  s !! i = Some x -> index s i = Normal x.
Proof. intros Hx. unfold index. now rewrite Hx. Qed.

Lemma index_in_range {A : Type} (s : list A) (i : nat) (d : A) :
  (i < length s)%nat -> index s i = Normal (nth i s d).
Proof.
  intros Hi. apply index_lookup.
  destruct (nth_lookup_or_length s i d) as [Hs|Hs]; [exact Hs | lia].
Qed.

(** The column loop appends, column by column, what [newMetric] returns. *)
Lemma procColumns_outcomes (q : QueryInstance) (labels : list string)
    (names : list string) :
  forall (idx : nat) (data : list value) (ms : list Metric) (es : list error),
    (idx + length names <= length data)%nat ->
    procColumns q names idx data labels ms es
    = Normal (ms ++ flat_map samples_of (rowOutcomes q names (drop idx data) labels),
              es ++ flat_map errors_of (rowOutcomes q names (drop idx data) labels)).
Proof.
  induction names as [|name names IH]; intros idx data ms es Hlen.
  - simpl. now rewrite !app_nil_r.
  - simpl in Hlen.
    destruct (data !! idx) as [v|] eqn:Hv;
      [|apply lookup_ge_None in Hv; lia].
    rewrite (drop_S _ _ _ Hv).
    cbn [procColumns]. rewrite (index_lookup _ _ _ Hv). cbn [mbind outcome_bind].
    unfold rowOutcomes. cbn [zip_with map flat_map fst snd].
    fold (rowOutcomes q names (drop (S idx) data) labels).
    destruct (newMetric q (GetColumn q name serverLabels) name v labels)
      as [[m|] [e|]]; rewrite IH by lia; cbn [samples_of errors_of app];
      rewrite <- ?app_assoc; reflexivity.
Qed.

Lemma procDBName_resolvable (q : QueryInstance) (idx : gmap string nat)
    (data : list value) :
  labels_resolvable q idx data ->
  procDBName q idx data = Normal (rowDBName q idx data).
Proof.
  intros [Hdb _]. unfold procDBName, rowDBName.
  destruct (String.eqb_spec (DBNameLabel q) "") as [Heq|Hne]; [reflexivity|].
  cbn [negb]. rewrite (index_in_range _ _ VNil (Hdb Hne)). reflexivity.
Qed.

Lemma procLabels_resolvable (q : QueryInstance) (idx : gmap string nat)
    (data : list value) (dbName : string) :
  labels_resolvable q idx data ->
  procLabels q idx data dbName = Normal (rowLabels q idx data dbName).
Proof.
  intros [_ Hl]. unfold procLabels, rowLabels.
  induction Hl as [|label rest Hlabel _ IH]; [reflexivity|].
  cbn [mapM map]. rewrite (index_in_range _ _ VNil Hlabel). cbn [mbind outcome_bind].
  destruct (decode q (nth (map_index idx label) data VNil) label dbName) as [v err].
  cbn [mret outcome_ret mbind outcome_bind fst]. rewrite IH. reflexivity.
Qed.

(** A row whose labels are resolvable and that has a value for every
    column name is processed to the end. *)
Lemma procRows_outcomes (q : QueryInstance) (names : list string)
    (idx : gmap string nat) (data : list value) :
  labels_resolvable q idx data ->
  (length names <= length data)%nat ->
  procRows q names idx data
  = Normal (flat_map samples_of
              (rowOutcomes q names data (rowLabels q idx data (rowDBName q idx data))),
            flat_map errors_of
              (rowOutcomes q names data (rowLabels q idx data (rowDBName q idx data)))).
Proof.
  intros Hres Hlen. unfold procRows.
  rewrite (procDBName_resolvable _ _ _ Hres). cbn [mbind outcome_bind].
  rewrite (procLabels_resolvable _ _ _ _ Hres). cbn [mbind outcome_bind].
  rewrite procColumns_outcomes by (simpl; lia). reflexivity.
Qed.

Lemma rowOutcomes_lookup (q : QueryInstance) (names : list string)
    (data : list value) (labels : list string) (i : nat) (name : string) (v : value) :
  names !! i = Some name -> data !! i = Some v ->
  rowOutcomes q names data labels !! i
  = Some (newMetric q (GetColumn q name serverLabels) name v labels).
Proof.
  intros Hn Hv. unfold rowOutcomes.
  change (map ?f ?l) with (f <$> l).
  rewrite list_lookup_fmap.
  rewrite (lookup_zip_with pair names data i).
  rewrite Hn, Hv. reflexivity.
Qed.


Lemma flat_map_split {A B : Type} (f : A -> list B) (l : list A) (i : nat) (x : A) :
  l !! i = Some x ->
  flat_map f l = flat_map f (take i l) ++ f x ++ flat_map f (drop (S i) l).
Proof.
  intros Hx.
  rewrite <- (take_drop_middle l i x Hx) at 1.
  rewrite flat_map_app. reflexivity.
Qed.

Lemma newMetric_unparseable (q : QueryInstance) (col : Column) (name : string)
    (v : value) (labels : list string) :
  eligible col -> snd (DbToFloat64 v) = false ->
  newMetric q (Some col) name v labels
  = (None, Some (errors_New (Sprintln4 "Unexpected error parsing column: "
                               (Name q) name (Sprint_value v)))).
Proof.
  intros (Hd & Hh & Hm) Hok. unfold newMetric.
  rewrite Hd, Hh, Hm.
  destruct (DbToFloat64 v) as [value ok]. simpl in Hok. subst ok. reflexivity.
Qed.

(** C2. In a row whose label columns are mapped inside the row and that
    has a value for every column name, a column with a declared, eligible
    descriptor whose value does not coerce to a number contributes no
    sample and exactly one error, whose text names the metric name and the
    column name; every column of the row is still given to [newMetric],
    and [procRows] returns the samples and errors of the columns before
    it, that one error, and the samples and errors of the columns after
    it. Outside these rows the call is aborted by a run-time panic. *)
Theorem procRows_unparseable_column (q : QueryInstance) (names : list string)
    (idx : gmap string nat) (data : list value)
    (i : nat) (name : string) (v : value) (col : Column) :
  labels_resolvable q idx data ->
  (length names <= length data)%nat ->
  names !! i = Some name ->
  data !! i = Some v ->
  GetColumn q name serverLabels = Some col ->
  eligible col ->
  snd (DbToFloat64 v) = false ->
  let labels := rowLabels q idx data (rowDBName q idx data) in
  let outs := rowOutcomes q names data labels in
  exists err : error,
    outs !! i = Some (None, Some err) /\
    Error err = Sprintln4 "Unexpected error parsing column: "
                  (Name q) name (Sprint_value v) /\
    (exists before after, Error err = before +:+ Name q +:+ " " +:+ name +:+ after) /\
    (forall j n w, names !! j = Some n -> data !! j = Some w ->
       outs !! j = Some (newMetric q (GetColumn q n serverLabels) n w labels)) /\
    procRows q names idx data
    = Normal (flat_map samples_of (take i outs) ++ flat_map samples_of (drop (S i) outs),
              flat_map errors_of (take i outs) ++ err :: flat_map errors_of (drop (S i) outs)).
Proof.
  intros Hres Hlen Hn Hv Hcol Hel Hok labels outs.
  pose proof (rowOutcomes_lookup q names data labels i name v Hn Hv) as Hi.
  rewrite Hcol, (newMetric_unparseable q col name v labels Hel Hok) in Hi.
  eexists. split; [exact Hi|]. split; [reflexivity|]. split; [|split].
  - exists "Unexpected error parsing column:  ".
    exists (" " +:+ Sprint_value v +:+ String "010" "").
    cbn [Error]. unfold Sprintln4. reflexivity.
  - intros j n w Hj Hw. now apply rowOutcomes_lookup.
  - rewrite procRows_outcomes by (trivial; lia).
    fold labels. fold outs.
    rewrite (flat_map_split samples_of outs i _ Hi).
    rewrite (flat_map_split errors_of outs i _ Hi).
    reflexivity.
Qed.

(** C3. When no descriptor is declared for a column ([GetColumn] returns
    nil), or the descriptor is marked discard or histogram or has the
    mapped-metric usage, [newMetric] returns neither a sample nor an
    error, and the column contributes nothing to the row: an undeclared
    column is never turned into a metric. *)
Theorem newMetric_skips_column (q : QueryInstance) (col : option Column)
    (columnName : string) (colValue : value) (labels : list string) :
  col = None \/
  (exists c, col = Some c /\
             (DisCard c = true \/ Histogram c = true \/
              EqualFold (Usage c) MappedMETRIC = true)) ->
  newMetric q col columnName colValue labels = (None, None) /\
  (forall names data i,
     names !! i = Some columnName -> data !! i = Some colValue ->
     col = GetColumn q columnName serverLabels ->
     exists o, rowOutcomes q names data labels !! i = Some o /\
               samples_of o = [] /\ errors_of o = []).
Proof.
  intros Hskip.
  assert (Hnone : newMetric q col columnName colValue labels = (None, None)).
  { destruct Hskip as [->|(c & -> & Hc)]; [reflexivity|].
    unfold newMetric.
    destruct (DisCard c); [reflexivity|].
    destruct (Histogram c); [reflexivity|].
    destruct (EqualFold (Usage c) MappedMETRIC); [reflexivity|].
    destruct Hc as [Hc|[Hc|Hc]]; discriminate. }
  split; [exact Hnone|].
  intros names data i Hn Hv Hcol.
  eexists. split.
  - rewrite (rowOutcomes_lookup q names data labels i _ _ Hn Hv), <- Hcol, Hnone.
    reflexivity.
  - split; reflexivity.
Qed.

(** C8. When the value of an eligible column coerces and
    [MustNewConstMetric] panics, [newMetric] returns no sample and the
    error [RecoverErr] makes of the panic value; [procRows] records that
    one error for the column and returns normally with the samples and
    errors of the other columns. *)
Theorem newMetric_recovers_panic (q : QueryInstance) (c : Column)
    (columnName : string) (colValue : value) (labels : list string)
    (value : float64) (p : panic_value) :
  eligible c ->
  DbToFloat64 colValue = (value, true) ->
  MustNewConstMetric (PrometheusDesc c) (PrometheusType c) value labels = Panic p ->
  newMetric q (Some c) columnName colValue labels = (None, Some (recovered p)) /\
  (forall names idx data i,
     labels_resolvable q idx data ->
     length names = length data ->
     names !! i = Some columnName -> data !! i = Some colValue ->
     GetColumn q columnName serverLabels = Some c ->
     labels = rowLabels q idx data (rowDBName q idx data) ->
     let outs := rowOutcomes q names data labels in
     procRows q names idx data
     = Normal (flat_map samples_of (take i outs) ++ flat_map samples_of (drop (S i) outs),
               flat_map errors_of (take i outs)
                 ++ recovered p :: flat_map errors_of (drop (S i) outs))).
Proof.
  intros (Hd & Hh & Hm) Hval Hpanic.
  assert (Hnew : newMetric q (Some c) columnName colValue labels
                 = (None, Some (recovered p))).
  { unfold newMetric. rewrite Hd, Hh, Hm, Hval. cbn [negb].
    rewrite Hpanic. destruct p; reflexivity. }
  split; [exact Hnew|].
  intros names idx data i Hres Hlen Hn Hv Hcol Hlabels outs.
  pose proof (rowOutcomes_lookup q names data labels i _ _ Hn Hv) as Hi.
  rewrite Hcol, Hnew in Hi.
  rewrite procRows_outcomes by (trivial; lia).
  rewrite <- Hlabels. fold outs.
  rewrite (flat_map_split samples_of outs i _ Hi).
  rewrite (flat_map_split errors_of outs i _ Hi).
  reflexivity.
Qed.

(** C5. [decode] never reports an error. It returns the text unchanged
    when no descriptor is declared for the label column, when the
    descriptor does not ask for the UTF-8 check, or when the text is
    well-formed UTF-8; otherwise the empty string when the database name
    is empty; otherwise the text decoded by [DecodeByte] from the charset
    UTF8, or the empty string when that fails. [DecodeByte] knows UTF8,
    GBK and GB18030, the last one through the GBK decoder. *)
Theorem decode_contract (q : QueryInstance) (data : value) (label dbName : string) :
  let v := fst (DbToString data false) in
  let col := GetColumn q label serverLabels in
  snd (decode q data label dbName) = None /\
  (col = None -> fst (decode q data label dbName) = v) /\
  (forall c, col = Some c -> CheckUTF8 c = false ->
             fst (decode q data label dbName) = v) /\
  (ValidString v = true -> fst (decode q data label dbName) = v) /\
  (forall c, col = Some c -> CheckUTF8 c = true -> ValidString v = false ->
     (dbName = "" -> fst (decode q data label dbName) = "") /\
     (dbName <> "" ->
      fst (decode q data label dbName)
      = match MIB_Encoding "UTF-8" with
        | inl enc =>
            match ReadAllDecoded enc (list_byte_of_string v) with
            | inl b => string_of_list_byte b
            | inr _ => ""
            end
        | inr _ => ""
        end)) /\
  GetMapCharset "UTF8" = "UTF-8" /\
  GetMapCharset "GBK" = "GBK" /\
  GetMapCharset "GB18030" = "GBK" /\
  (forall b charset,
     DecodeByte b charset
     = match MIB_Encoding (GetMapCharset charset) with
       | inl enc =>
           match ReadAllDecoded enc b with
           | inl tmp => (tmp, None)
           | inr err => (b, Some err)
           end
       | inr err => (b, Some err)
       end).
Proof.
  intros v col.
  assert (Hutf8 : GetMapCharset "UTF8" = "UTF-8") by (vm_compute; reflexivity).
  assert (Hdec : forall b,
            DecodeByte b "UTF8"
            = match MIB_Encoding "UTF-8" with
              | inl enc =>
                  match ReadAllDecoded enc b with
                  | inl tmp => (tmp, None)
                  | inr err => (b, Some err)
                  end
              | inr err => (b, Some err)
              end).
  { intros b. unfold DecodeByte. rewrite Hutf8. reflexivity. }
  assert (Hgbk : GetMapCharset "GBK" = "GBK") by (vm_compute; reflexivity).
  assert (Hgb : GetMapCharset "GB18030" = "GBK") by (vm_compute; reflexivity).
  unfold decode. fold v. fold col. clearbody col v.
  split; [|split; [|split; [|split; [|split]]]].
  - destruct col as [c|]; [|reflexivity].
    destruct (CheckUTF8 c); cbn [negb]; [|reflexivity].
    destruct (ValidString v); [reflexivity|].
    destruct (String.eqb dbName ""); [reflexivity|].
    destruct (DecodeByte (list_byte_of_string v) "UTF8") as [b [err|]]; reflexivity.
  - intros ->. reflexivity.
  - intros c -> ->. reflexivity.
  - intros Hv. destruct col as [c|]; [|reflexivity].
    destruct (CheckUTF8 c); cbn [negb]; [|reflexivity].
    rewrite Hv. reflexivity.
  - intros c -> Hcheck Hvalid. rewrite Hcheck, Hvalid. cbn [negb]. split.
    + intros ->. reflexivity.
    + intros Hne.
      destruct (String.eqb_spec dbName "") as [Heq|_]; [contradiction|].
      rewrite Hdec.
      destruct (MIB_Encoding "UTF-8") as [enc|err]; [|reflexivity].
      destruct (ReadAllDecoded enc (list_byte_of_string v)); reflexivity.
  - repeat split; trivial.
Qed.

(** C10. On a non-empty row a name the column-index map does not hold is
    looked up at index 0 and read from the first column, without a panic:
    so is the database name when its label column is absent, and so is
    every absent label column, decoded from the first column's value.
    When every declared label is absent or mapped inside the row the label
    pass returns normally, and when the row also has a value per column
    name [procRows] returns normally, every recorded error being the error
    of [newMetric] on some column. *)
Theorem procRows_absent_label (q : QueryInstance) (names : list string)
    (idx : gmap string nat) (v0 : value) (rest : list value) :
  let data := v0 :: rest in
  let dbName := rowDBName q idx data in
  let labels := rowLabels q idx data dbName in
  let outs := rowOutcomes q names data labels in
  (forall l, idx !! l = None ->
     map_index idx l = 0%nat /\ index data (map_index idx l) = Normal v0) /\
  (DBNameLabel q <> "" -> idx !! DBNameLabel q = None ->
     procDBName q idx data = Normal (fst (DbToString v0 true))) /\
  (Forall (fun l => idx !! l = None) (LabelNames q) ->
     forall dbName', procLabels q idx data dbName'
                     = Normal (map (fun l => fst (decode q v0 l dbName')) (LabelNames q))) /\
  ((DBNameLabel q <> "" ->
    idx !! DBNameLabel q = None \/
    (map_index idx (DBNameLabel q) < length data)%nat) ->
   Forall (fun l => idx !! l = None \/ (map_index idx l < length data)%nat)
          (LabelNames q) ->
   procDBName q idx data = Normal dbName /\
   procLabels q idx data dbName = Normal labels /\
   (forall i l, LabelNames q !! i = Some l -> idx !! l = None ->
      labels !! i = Some (fst (decode q v0 l dbName))) /\
   ((length names <= length data)%nat ->
    procRows q names idx data
    = Normal (flat_map samples_of outs, flat_map errors_of outs) /\
    (forall e, In e (flat_map errors_of outs) ->
       exists j n w, names !! j = Some n /\ data !! j = Some w /\
         snd (newMetric q (GetColumn q n serverLabels) n w labels) = Some e))).
Proof.
  intros data dbName labels outs.
  assert (Habsent : forall l, idx !! l = None -> map_index idx l = 0%nat).
  { intros l Hl. unfold map_index. now rewrite Hl. }
  assert (Hfirst : forall l, idx !! l = None ->
                    index data (map_index idx l) = Normal v0).
  { intros l Hl. now rewrite (Habsent _ Hl). }
  split; [|split; [|split]].
  - intros l Hl. split; [now apply Habsent|now apply Hfirst].
  - intros Hne Hnone. unfold procDBName.
    destruct (String.eqb_spec (DBNameLabel q) "") as [Heq|_]; [contradiction|].
    cbn [negb]. rewrite (Hfirst _ Hnone). reflexivity.
  - intros Hall dbName'. unfold procLabels.
    induction Hall as [|l ls Hnone _ IH]; [reflexivity|].
    cbn [mapM map]. rewrite (Hfirst _ Hnone), IH.
    cbn [mbind outcome_bind].
    destruct (decode q v0 l dbName') as [v err]. reflexivity.
  - intros Hdb Hlabels.
    assert (Hres : labels_resolvable q idx data).
    { split.
      - intros Hne. destruct (Hdb Hne) as [Hnone|Hin]; [|exact Hin].
        rewrite (Habsent _ Hnone). simpl. lia.
      - eapply Forall_impl; [exact Hlabels|].
        intros l [Hnone|Hin]; [|exact Hin].
        rewrite (Habsent _ Hnone). simpl. lia. }
    split; [now apply procDBName_resolvable|].
    split; [now apply procLabels_resolvable|].
    split.
    + intros i l Hi Hnone. unfold labels, rowLabels.
      change (map ?f ?l) with (f <$> l).
      rewrite list_lookup_fmap, Hi. cbn [fmap option_fmap option_map].
      rewrite (Habsent _ Hnone). reflexivity.
    + intros Hlen. split; [now apply procRows_outcomes|].
      intros e He. apply in_flat_map in He as (o & Ho & He).
      apply list_elem_of_In, list_elem_of_lookup in Ho as (j & Hj).
      unfold outs, rowOutcomes in Hj.
      change (map ?f ?l) with (f <$> l) in Hj.
      rewrite list_lookup_fmap in Hj.
      destruct (zip names data !! j) as [[n w]|] eqn:Hz; [|discriminate].
      apply lookup_zip_with_Some in Hz as (n' & w' & [= <- <-] & Hn & Hw).
      exists j, n, w. split; [exact Hn|]. split; [exact Hw|].
      injection Hj as <-. cbn [fst snd] in *.
      destruct (newMetric q (GetColumn q n serverLabels) n w labels) as [m [e'|]];
        simpl in He; [|destruct m; destruct He].
      destruct He as [<-|[]]. reflexivity.
Qed.

Lemma scanRows_app (dests : nat) (data : list (option (list value))) :
  forall l, scanRows dests data l = l ++ scanRows dests data [].
Proof.
  induction data as [|row data IH]; intros l; simpl.
  - now rewrite app_nil_r.
  - destruct (Scan dests row) as [columnData|]; [|now rewrite app_nil_r].
    rewrite IH, (IH [columnData]). now rewrite app_assoc.
Qed.

(** The statement loop runs the enabled statements, in order, and keeps
    the rows they return and the column names of the last cursor. *)
Lemma runQueries_exec (queries : list Query) :
  forall (db : DB) (columnNames : list string) (l : list (list value)),
    runQueries db queries columnNames l
    = let '(db', results) := execAll db (SQL <$> List.filter enabled queries) in
      (db', lastColumns results columnNames, l ++ concat (rows_of <$> results)).
Proof.
  induction queries as [|query queries IH]; intros db columnNames l.
  - simpl. now rewrite app_nil_r.
  - cbn [runQueries List.filter]. unfold enabled at 1.
    destruct (String.eqb (Status query) "disable"); cbn [negb]; [apply IH|].
    cbn [fmap list_fmap execAll].
    destruct (QueryContext db (SQL query)) as [db1 res].
    destruct res as [err| |rows]; rewrite IH;
      change (list_fmap _ _ SQL ?x) with (SQL <$> x);
      destruct (execAll db1 (SQL <$> List.filter enabled queries)) as [db2 results];
      cbn [lastColumns fmap list_fmap concat rows_of app]; try reflexivity.
    rewrite scanRows_app, <- app_assoc. reflexivity.
Qed.

(** The row loop processes the rows in order and appends their samples. *)
Lemma procList_mapM (q : QueryInstance) (columnNames : list string)
    (columnIdx : gmap string nat) (rows : list (list value)) :
  forall metrics,
    procList q columnNames columnIdx rows metrics
    = (results ← mapM (procRows q columnNames columnIdx) rows;
       mret (metrics ++ concat (fst <$> results))).
Proof.
  induction rows as [|row rows IH]; intros metrics.
  - simpl. now rewrite app_nil_r.
  - cbn [procList mapM].
    destruct (procRows q columnNames columnIdx row) as [[metric errs]|p];
      [|reflexivity].
    cbn [mbind outcome_bind]. rewrite IH.
    destruct (mapM (procRows q columnNames columnIdx) rows) as [results|p];
      [|reflexivity].
    cbn [mbind outcome_bind mret outcome_ret fmap list_fmap concat fst].
    now rewrite app_assoc.
Qed.

(** The lookup map sends a name to its last position in the list. *)
Lemma makeColumnIdx_lookup (n : string) (columnNames : list string) :
  forall (i : nat) (m : gmap string nat),
    makeColumnIdx columnNames i m !! n
    = match lastIndex n columnNames i with
      | Some j => Some j
      | None => m !! n
      end.
Proof.
  induction columnNames as [|c columnNames IH]; intros i m; [reflexivity|].
  cbn [makeColumnIdx lastIndex]. rewrite IH.
  destruct (lastIndex n columnNames (S i)) as [j|]; [reflexivity|].
  destruct (String.eqb_spec c n) as [->|Hne].
  - apply lookup_insert_eq.
  - now apply lookup_insert_ne.
Qed.

Lemma lastIndex_lookup (n : string) (columnNames : list string) :
  forall i j, lastIndex n columnNames i = Some j ->
    (i <= j)%nat /\ columnNames !! (j - i)%nat = Some n /\
    forall k, (j - i < k)%nat -> columnNames !! k <> Some n.
Proof.
  induction columnNames as [|c columnNames IH]; intros i j Hj; [discriminate|].
  cbn [lastIndex] in Hj.
  destruct (lastIndex n columnNames (S i)) as [j'|] eqn:Hrest.
  - injection Hj as <-. destruct (IH _ _ Hrest) as (Hle & Hat & Hafter).
    split; [lia|]. split.
    + replace (j' - i)%nat with (S (j' - S i)) by lia. exact Hat.
    + intros k Hk. destruct k as [|k]; [lia|]. cbn. apply Hafter. lia.
  - destruct (String.eqb_spec c n) as [->|Hne]; [|discriminate].
    injection Hj as <-. split; [lia|]. rewrite Nat.sub_diag. split; [reflexivity|].
    intros k Hk. destruct k as [|k]; [lia|]. cbn.
    intros Hin.
    assert (Hsome : exists j, lastIndex n columnNames (S i) = Some j).
    { clear -Hin. revert k i Hin.
      induction columnNames as [|c' cs IHcs]; intros k i Hin; [destruct k; discriminate|].
      cbn [lastIndex]. destruct k as [|k].
      - injection Hin as ->.
        destruct (lastIndex n cs (S (S i))); [eauto|].
        rewrite String.eqb_refl. eauto.
      - destruct (IHcs k (S i) Hin) as [j ->]. eauto. }
    destruct Hsome as [j Hsome]. congruence.
Qed.

(** C4. [getMetric] runs the enabled statements in order, appends the
    rows they return into one list in statement order, and processes every
    row of that list with the column names of the last statement that
    returned a cursor and the one index map built from them, which sends a
    name to its (last) position in that list; the samples of the rows are
    appended in order. *)
Theorem getMetric_concatenates (db : DB) (q : QueryInstance) :
  let '(db', results) := execAll db (SQL <$> List.filter enabled (Queries q)) in
  let columnNames := lastColumns results [] in
  let columnIdx := makeColumnIdx columnNames 0 ∅ in
  getMetric db q
  = (db', rows ← mapM (procRows q columnNames columnIdx) (concat (rows_of <$> results));
          mret (concat (fst <$> rows))) /\
  (forall n, columnIdx !! n = lastIndex n columnNames 0) /\
  (forall n j, columnIdx !! n = Some j ->
     columnNames !! j = Some n /\
     forall k, (j < k)%nat -> columnNames !! k <> Some n).
Proof.
  pose proof (runQueries_exec (Queries q) db [] []) as Hrun.
  destruct (execAll db (SQL <$> List.filter enabled (Queries q))) as [db' results].
  intros columnNames columnIdx.
  assert (Hidx : forall n, columnIdx !! n = lastIndex n columnNames 0).
  { intros n. unfold columnIdx. rewrite makeColumnIdx_lookup.
    destruct (lastIndex n columnNames 0); [reflexivity|apply lookup_empty]. }
  split; [|split; [exact Hidx|]].
  - unfold getMetric. rewrite Hrun. cbn [app].
    fold columnNames. fold columnIdx. rewrite procList_mapM. reflexivity.
  - intros n j Hj. rewrite Hidx in Hj.
    destruct (lastIndex_lookup _ _ _ _ Hj) as (_ & Hat & Hafter).
    rewrite Nat.sub_0_r in Hat, Hafter. split; [exact Hat|exact Hafter].
Qed.

(** C6. A statement whose status is disable is not run and adds nothing:
    the statement loop gives the same server, column names and rows with it
    or without it, [getMetric] is computed from the results of the enabled
    statements only, and a definition whose statements are all disabled
    leaves the server untouched and gives no sample. *)
Theorem getMetric_skips_disabled (db : DB) (q : QueryInstance) :
  (forall before after query columnNames l,
     Status query = "disable" ->
     runQueries db (before ++ query :: after) columnNames l
     = runQueries db (before ++ after) columnNames l) /\
  (let '(db', results) := execAll db (SQL <$> List.filter enabled (Queries q)) in
   getMetric db q
   = (db', procList q (lastColumns results [])
             (makeColumnIdx (lastColumns results []) 0 ∅)
             (concat (rows_of <$> results)) [])) /\
  (Forall (fun query => Status query = "disable") (Queries q) ->
   getMetric db q = (db, Normal [])).
Proof.
  split; [|split].
  - intros before after query columnNames l Hs.
    rewrite !runQueries_exec, !List.filter_app. cbn [List.filter].
    unfold enabled at 2. rewrite Hs. reflexivity.
  - pose proof (runQueries_exec (Queries q) db [] []) as Hrun.
    destruct (execAll db (SQL <$> List.filter enabled (Queries q))) as [db' results].
    unfold getMetric. rewrite Hrun. reflexivity.
  - intros Hall. unfold getMetric.
    rewrite runQueries_exec.
    replace (List.filter enabled (Queries q)) with (@nil Query); [reflexivity|].
    induction Hall as [|query queries Hs _ IH]; [reflexivity|].
    cbn [List.filter]. unfold enabled at 1. rewrite Hs. exact IH.
Qed.

End CollectorProperties.

(** ** The shared definition and the function-level reading

    The properties above read [GetColumn] as a function of the definition.
    When [GetColumn] hands the definition back as it received it, the
    store-passing [procRows] is that function-level [procRows] and leaves
    the definition as it found it; [procRows], [newMetric] and [decode]
    write nothing to it themselves. *)

Section SharedProperties.
Context `{GoLib} `{Prometheus}.
Variable MonitDB : GaussDBConnectConfig.
Variable MappedMETRIC : string.
Variable GetColumn :
  QueryInstance -> string -> Labels -> option Column * QueryInstance.

Local Abbreviation resolved := (Shared.resolved GetColumn).

Hypothesis GetColumn_reads : Shared.read_only GetColumn.

Lemma GetColumn_eq q n l : GetColumn q n l = (resolved q n l, q).
Proof.
  unfold Shared.resolved. rewrite <- (GetColumn_reads q n l) at 3.
  now destruct (GetColumn q n l).
Qed.

Lemma decode_shared q data label dbName :
  Shared.decode MonitDB GetColumn q data label dbName
  = (decode MonitDB resolved q data label dbName, q).
Proof.
  unfold Shared.decode, decode. rewrite GetColumn_eq.
  destruct (resolved q label (serverLabels MonitDB)) as [c|]; [|reflexivity].
  destruct (negb (CheckUTF8 c)); [reflexivity|].
  destruct (ValidString _); [reflexivity|].
  destruct (String.eqb dbName ""); [reflexivity|].
  destruct (DecodeByte _ _) as [b [err|]]; reflexivity.
Qed.

Lemma procLabels_shared q idx data dbName (labelNames : list string) :
  Shared.procLabels MonitDB GetColumn q labelNames idx data dbName
  = (mapM (fun label =>
             d ← index data (map_index idx label);
             let '(v, err) := decode MonitDB resolved q d label dbName in
             mret v) labelNames, q).
Proof.
  induction labelNames as [|label rest IH]; [reflexivity|].
  cbn [Shared.procLabels mapM].
  destruct (index data (map_index idx label)) as [d|p]; [|reflexivity].
  cbn [mbind outcome_bind]. rewrite decode_shared.
  destruct (decode MonitDB resolved q d label dbName) as [v err].
  rewrite IH. reflexivity.
Qed.

Lemma procColumns_shared q labels data (names : list string) :
  forall idx ms es,
    Shared.procColumns MonitDB MappedMETRIC GetColumn q names idx data labels ms es
    = (procColumns MonitDB MappedMETRIC resolved q names idx data labels ms es, q).
Proof.
  induction names as [|name names IH]; intros idx ms es; [reflexivity|].
  cbn [Shared.procColumns procColumns]. rewrite GetColumn_eq.
  destruct (index data idx) as [v|p]; [|reflexivity].
  cbn [mbind outcome_bind].
  destruct (newMetric MappedMETRIC q _ name v labels) as [[m|] [e|]]; apply IH.
Qed.

Lemma procRows_shared q names idx data :
  Shared.procRows MonitDB MappedMETRIC GetColumn q names idx data
  = (procRows MonitDB MappedMETRIC resolved q names idx data, q).
Proof.
  unfold Shared.procRows, procRows.
  destruct (procDBName q idx data) as [dbName|p]; [|reflexivity].
  cbn [mbind outcome_bind]. rewrite procLabels_shared.
  unfold procLabels.
  destruct (mapM _ (LabelNames q)) as [labels|p]; [|reflexivity].
  cbn [mbind outcome_bind]. apply procColumns_shared.
Qed.

End SharedProperties.

(** ** The properties on the concrete definition *)

Section Runs.
Import Sample.

Local Abbreviation procRows := (procRows MonitDB MappedMETRIC GetColumn).
Local Abbreviation procLabels := (procLabels MonitDB GetColumn).
Local Abbreviation newMetric := (newMetric MappedMETRIC).
Local Abbreviation getMetric := (getMetric MonitDB MappedMETRIC GetColumn).
Local Abbreviation decode := (decode MonitDB GetColumn).


Lemma DbToString_contract_witness :
  valid_value (VTime (mkTime 1700000000 123456789 0)) /\
  DbToString (VTime (mkTime 1700000000 123456789 0)) false
  = ("1700000000123", true).
Proof.
  assert (Hvalid : valid_value (VTime (mkTime 1700000000 123456789 0)))
    by (simpl; lia).
  split; [exact Hvalid|].
  destruct DbToString_contract as (_ & _ & _ & Hcompact & _).
  exact (Hcompact (mkTime 1700000000 123456789 0) Hvalid).
Defined.

Lemma procRows_unparseable_column_witness :
  exists err : error,
    Error err
    = Sprintln4 "Unexpected error parsing column: " "pg_database" "numbackends" "N/A" /\
    exists sample,
      procRows pg_database pg_database_columnNames pg_database_columnIdx row_bad
      = Normal ([sample], [err]).
Proof.
  destruct (procRows_unparseable_column MonitDB MappedMETRIC GetColumn
              pg_database pg_database_columnNames pg_database_columnIdx row_bad
              1 "numbackends" (VString "N/A") numbackends_col)
    as (err & _ & Herr & _ & _ & Hrun).
  - split; [intros Hne; now contradiction Hne|]. repeat constructor.
  - simpl. lia.
  - reflexivity.
  - reflexivity.
  - vm_compute. reflexivity.
  - repeat split.
  - reflexivity.
  - exists err. split; [exact Herr|].
    eexists. rewrite Hrun. vm_compute. reflexivity.
Defined.

(** C2, as the claim words it, fails. The second column of the row below
    is declared and eligible and its value does not coerce, but the row,
    one of an earlier statement that returns two columns, is shorter than
    the three column names: the call is aborted by the panic of
    [columnData[2]] and returns neither samples nor errors. So is a row of
    full width whose label column is mapped past its end. *)
Lemma procRows_unparseable_column_counterexample :
  pg_database_columnNames !! 1%nat = Some "numbackends" /\
  [VString "postgres"; VString "N/A"] !! 1%nat = Some (VString "N/A") /\
  GetColumn pg_database "numbackends" (serverLabels MonitDB)
  = Some numbackends_col /\
  eligible MappedMETRIC numbackends_col /\
  snd (DbToFloat64 (VString "N/A")) = false /\
  procRows pg_database pg_database_columnNames pg_database_columnIdx
    [VString "postgres"; VString "N/A"]
  = Panic (PanicError (index_out_of_range 2 2)) /\
  ~ (exists samples errs,
       procRows pg_database pg_database_columnNames pg_database_columnIdx
         [VString "postgres"; VString "N/A"] = Normal (samples, errs)) /\
  procRows pg_database pg_database_columnNames (<["datname" := 5%nat]> ∅) row_bad
  = Panic (PanicError (index_out_of_range 5 3)).
Proof.
  assert (Hrun : procRows pg_database pg_database_columnNames pg_database_columnIdx
                   [VString "postgres"; VString "N/A"]
                 = Panic (PanicError (index_out_of_range 2 2)))
    by (vm_compute; reflexivity).
  split; [reflexivity|]. split; [reflexivity|].
  split; [vm_compute; reflexivity|]. split; [repeat split|].
  split; [reflexivity|]. split; [exact Hrun|]. split.
  - intros (samples & errs & Hnormal). rewrite Hrun in Hnormal. discriminate.
  - vm_compute. reflexivity.
Qed.

Lemma newMetric_skips_column_witness :
  newMetric pg_database (GetColumn pg_database "undeclared" (serverLabels MonitDB))
    "undeclared" (VInt64 1) ["postgres"] = (None, None) /\
  newMetric pg_database (GetColumn pg_database "datname" (serverLabels MonitDB))
    "datname" (VString "postgres") ["postgres"] = (None, None).
Proof.
  split.
  - apply (newMetric_skips_column MonitDB MappedMETRIC GetColumn).
    left. vm_compute. reflexivity.
  - apply (newMetric_skips_column MonitDB MappedMETRIC GetColumn).
    right. eexists. split; [vm_compute; reflexivity|]. left. reflexivity.
Defined.

Lemma newMetric_recovers_panic_witness :
  newMetric pg_mismatch (Some mismatch_col) "numbackends" (VInt64 3) ["postgres"]
  = (None, Some (errors_New "inconsistent label cardinality")).
Proof.
  apply (newMetric_recovers_panic MonitDB MappedMETRIC GetColumn pg_mismatch
           mismatch_col "numbackends" (VInt64 3) ["postgres"] (float64_of_int64 3)
           (PanicError (errors_New "inconsistent label cardinality"))).
  - repeat split.
  - reflexivity.
  - reflexivity.
Defined.

Lemma decode_contract_witness :
  decode pg_database (VBytes [xff; x61]%byte) "datname" "" = ("", None) /\
  decode pg_database (VString "postgres") "datname" "" = ("postgres", None).
Proof.
  pose proof (decode_contract MonitDB GetColumn pg_database
                (VBytes [xff; x61]%byte) "datname" "") as Hbytes.
  pose proof (decode_contract MonitDB GetColumn pg_database
                (VString "postgres") "datname" "") as Htext.
  cbv zeta in Hbytes, Htext.
  destruct Hbytes as (Herr1 & _ & _ & _ & Hcheck & _).
  destruct Htext as (Herr2 & _ & _ & Hvalid & _).
  split.
  - apply injective_projections; [|exact Herr1].
    eapply Hcheck; [vm_compute; reflexivity|reflexivity|reflexivity|reflexivity].
  - apply injective_projections; [|exact Herr2].
    apply Hvalid. reflexivity.
Defined.

Lemma procRows_absent_label_witness :
  procLabels pg_database ∅ row_standby "" = Normal ["5"] /\
  exists samples errs,
    procRows pg_database pg_database_columnNames ∅ row_standby
    = Normal (samples, errs).
Proof.
  pose proof (procRows_absent_label MonitDB MappedMETRIC GetColumn pg_database
                pg_database_columnNames ∅ (VInt64 5)
                [VString "standby"; VInt64 9]) as Habsent.
  cbv zeta in Habsent.
  destruct Habsent as (_ & _ & Hlabels & Hrow).
  split.
  - apply (Hlabels ltac:(repeat constructor) "").
  - destruct Hrow as (_ & _ & _ & Hrun).
    + intros Hne. now contradiction Hne.
    + repeat constructor.
    + destruct Hrun as [Hrun _]; [simpl; lia|].
      eexists. eexists. exact Hrun.
Defined.

(** C10, as the claim words it, fails. The index map below holds no entry
    for the declared label column [datname] and the rows are not empty.
    On the first row the label is read from the first column and the call
    returns, but it records an error: [newMetric] does not parse the text
    of the second column. On the second row, which is shorter than the
    column names, the call fails with the panic of [columnData[1]]. *)
Lemma procRows_absent_label_counterexample :
  LabelNames pg_database = ["datname"] /\
  (∅ : gmap string nat) !! "datname" = None /\
  (exists samples err,
      procRows pg_database pg_database_columnNames ∅ row_standby
      = Normal (samples, [err]) /\
      Error err = Sprintln4 "Unexpected error parsing column: "
                    "pg_database" "numbackends" "standby") /\
  procRows pg_database pg_database_columnNames ∅ [VInt64 5]
  = Panic (PanicError (index_out_of_range 1 1)).
Proof.
  split; [reflexivity|]. split; [reflexivity|]. split.
  - eexists. eexists. split; vm_compute; reflexivity.
  - vm_compute. reflexivity.
Qed.

Lemma getMetric_concatenates_witness :
  exists db' samples,
    getMetric server pg_database_two = (db', Normal samples) /\
    received db' = [select_main; select_standby] /\
    map labelValues samples = [["3"]; ["standby"]; ["standby"]].
Proof.
  pose proof (getMetric_concatenates MonitDB MappedMETRIC GetColumn
                server pg_database_two) as Hrun.
  remember (@execAll sql server
              (SQL <$> List.filter enabled (Queries pg_database_two)))
    as run eqn:Hexec in Hrun.
  vm_compute in Hexec. subst run. cbv beta iota zeta in Hrun.
  destruct Hrun as [Hrun _].
  eexists. eexists. split; [|split].
  - rewrite Hrun. vm_compute. reflexivity.
  - reflexivity.
  - reflexivity.
Defined.

Lemma getMetric_skips_disabled_witness :
  getMetric server pg_disabled = (server, Normal []).
Proof.
  apply (@getMetric_skips_disabled lib prom sql MonitDB MappedMETRIC GetColumn
           server pg_disabled).
  repeat constructor.
Defined.

(** The scenario of the specification: the row [("postgres", 3, 7)] gives
    one gauge sample and one counter sample, labelled [postgres]. *)
Example pg_database_row_good :
  exists samples,
    procRows pg_database pg_database_columnNames pg_database_columnIdx row_good
    = Normal (samples, []) /\
    map (fun m => (fqName (desc m), valType m, val m, labelValues m)) samples
    = [("pg_database_numbackends", GaugeValue, float64_of_int64 3, ["postgres"]);
       ("pg_database_xact_commit", CounterValue, float64_of_int64 7, ["postgres"])].
Proof. eexists. split; vm_compute; reflexivity. Qed.

(** Of the two statements of the definition only the enabled one reaches
    the server. *)
Example pg_database_statements_sent :
  received (getMetric server pg_database).1 = [select_main].
Proof. vm_compute. reflexivity. Qed.

(** A row shorter than the column names ends the call with a run-time
    panic: nothing in [procRows] recovers it. *)
Example pg_database_short_row :
  procRows pg_database pg_database_columnNames pg_database_columnIdx
    [VString "postgres"]
  = Panic (PanicError (index_out_of_range 1 1)).
Proof. vm_compute. reflexivity. Qed.

End Runs.

(** * Further properties of the code *)

(** ** The collector: rows, columns and the index map *)

Section EngineProperties.
Context `{GoLib} `{Prometheus} `{Sql}.
Variable MonitDB : GaussDBConnectConfig.
Variable MappedMETRIC : string.
Variable GetColumn : QueryInstance -> string -> Labels -> option Column.

Local Abbreviation decode := (decode MonitDB GetColumn).
Local Abbreviation newMetric := (newMetric MappedMETRIC).
Local Abbreviation procColumns := (procColumns MonitDB MappedMETRIC GetColumn).
Local Abbreviation procLabels := (procLabels MonitDB GetColumn).
Local Abbreviation procRows := (procRows MonitDB MappedMETRIC GetColumn).
Local Abbreviation procList := (procList MonitDB MappedMETRIC GetColumn).
Local Abbreviation getMetric := (getMetric MonitDB MappedMETRIC GetColumn).
Local Abbreviation rowLabels := (rowLabels MonitDB GetColumn).
Local Abbreviation rowOutcomes := (rowOutcomes MonitDB MappedMETRIC GetColumn).
Local Abbreviation eligible := (eligible MappedMETRIC).
Local Abbreviation serverLabels := (serverLabels MonitDB).

Lemma procColumns_short (q : QueryInstance) (labels : list string)
    (names : list string) :
  forall (i : nat) (data : list value) (ms : list Metric) (es : list error),
    (i <= length data)%nat -> (length data < i + length names)%nat ->
    procColumns q names i data labels ms es
    = Panic (PanicError (index_out_of_range (length data) (length data))).
Proof.
  induction names as [|name names IH]; intros i data ms es Hi Hlen;
    [simpl in Hlen; lia|].
  cbn [procColumns]. simpl in Hlen.
  destruct (data !! i) as [v|] eqn:Hv.
  - rewrite (index_lookup _ _ _ Hv). cbn [mbind outcome_bind].
    apply lookup_lt_Some in Hv.
    destruct (newMetric q (GetColumn q name serverLabels) name v labels)
      as [[m|] [e|]]; apply IH; lia.
  - apply lookup_ge_None in Hv. assert (i = length data) as -> by lia.
    unfold index. rewrite (proj2 (lookup_ge_None data (length data))) by lia.
    reflexivity.
Qed.

(** X1. A row that has fewer values than there are column names, and whose
    label columns are in range, makes [procRows] panic with the run-time
    error of an index out of range, at the first position past the row:
    the column loop reads [columnData[idx]] for every column name. *)
Theorem procRows_short_row (q : QueryInstance) (names : list string)
    (idx : gmap string nat) (data : list value) :
  labels_resolvable q idx data ->
  (length data < length names)%nat ->
  procRows q names idx data
  = Panic (PanicError (index_out_of_range (length data) (length data))).
Proof.
  intros Hres Hlen. unfold procRows.
  rewrite (procDBName_resolvable _ _ _ Hres). cbn [mbind outcome_bind].
  rewrite (procLabels_resolvable _ _ _ _ _ _ Hres). cbn [mbind outcome_bind].
  apply procColumns_short; simpl; lia.
Qed.

Lemma procList_first_panic (q : QueryInstance) (columnNames : list string)
    (columnIdx : gmap string nat) (before after : list (list value))
    (row : list value) (p : panic_value) (metrics : list Metric) :
  Forall (fun r => exists res, procRows q columnNames columnIdx r = Normal res) before ->
  procRows q columnNames columnIdx row = Panic p ->
  procList q columnNames columnIdx (before ++ row :: after) metrics = Panic p.
Proof.
  intros Hbefore Hrow. revert metrics.
  induction Hbefore as [|r before [[ms es] Hr] _ IH]; intros metrics.
  - cbn [app procList]. rewrite Hrow. reflexivity.
  - cbn [app procList]. rewrite Hr. cbn [mbind outcome_bind]. apply IH.
Qed.

Lemma scanRows_lengths (dests : nat) (data : list (option (list value))) :
  Forall (fun r => length r = dests) (scanRows dests data []).
Proof.
  induction data as [|row data IH]; [constructor|].
  cbn [scanRows]. destruct row as [vs|]; cbn [Scan]; [|constructor].
  destruct (decide (length vs = dests)) as [Hlen|_]; [|constructor].
  rewrite scanRows_app. constructor; [exact Hlen|exact IH].
Qed.

Lemma columnIdx_in_range (columnNames : list string) (n : string) (j : nat) :
  makeColumnIdx columnNames 0 ∅ !! n = Some j ->
  (j < length columnNames)%nat /\ columnNames !! j = Some n.
Proof.
  rewrite makeColumnIdx_lookup.
  destruct (lastIndex n columnNames 0) as [k|] eqn:Hk;
    [|rewrite lookup_empty; discriminate].
  intros [= <-]. destruct (lastIndex_lookup _ _ _ _ Hk) as (_ & Hat & _).
  rewrite Nat.sub_0_r in Hat. split; [|exact Hat].
  now apply lookup_lt_Some in Hat.
Qed.

Lemma columnIdx_resolvable (q : QueryInstance) (columnNames : list string)
    (data : list value) :
  columnNames <> [] -> length data = length columnNames ->
  labels_resolvable q (makeColumnIdx columnNames 0 ∅) data.
Proof.
  intros Hne Hlen.
  assert (Hpos : (0 < length columnNames)%nat).
  { destruct columnNames; [contradiction|simpl; lia]. }
  assert (Hany : forall l, (map_index (makeColumnIdx columnNames 0 ∅) l
                            < length data)%nat).
  { intros l. unfold map_index.
    destruct (makeColumnIdx columnNames 0 ∅ !! l) as [j|] eqn:Hj; simpl; [|lia].
    apply columnIdx_in_range in Hj. lia. }
  split; [intros _; apply Hany|].
  apply Forall_forall. intros l _. apply Hany.
Qed.

Lemma same_columns_rows (cols : list string) (results : list QueryResult) :
  same_columns cols results ->
  Forall (fun r => length r = length cols) (concat (rows_of <$> results)).
Proof.
  induction results as [|res results IH]; intros Hsame; [constructor|].
  cbn [fmap list_fmap concat]. apply Forall_app. split.
  - destruct res as [err| |rows]; cbn [rows_of]; try constructor.
    rewrite <- (Hsame rows (or_introl eq_refl)). apply scanRows_lengths.
  - apply IH. intros rows Hin. apply Hsame. now right.
Qed.

Lemma same_columns_last (cols : list string) (results : list QueryResult) :
  same_columns cols results ->
  forall c0, lastColumns results c0 = cols \/
             (lastColumns results c0 = c0 /\ concat (rows_of <$> results) = []).
Proof.
  induction results as [|res results IH]; intros Hsame c0; [now right|].
  assert (Htail : same_columns cols results).
  { intros rows Hin. apply Hsame. now right. }
  destruct res as [err| |rows]; cbn [lastColumns fmap list_fmap concat rows_of app].
  - apply (IH Htail).
  - apply (IH Htail).
  - left. rewrite (Hsame rows (or_introl eq_refl)).
    destruct (IH Htail cols) as [Hl|[Hl _]]; exact Hl.
Qed.

(** X3. When the list of column names is not empty and every cursor of a
    scrape returns that same list, [getMetric] returns normally, whatever
    the values and the definition are, and with at most one sample per
    column of each row. *)
Theorem getMetric_same_columns (db : DB) (q : QueryInstance) (cols : list string) :
  cols <> [] ->
  let '(db', results) := execAll db (SQL <$> List.filter enabled (Queries q)) in
  same_columns cols results ->
  exists samples,
    getMetric db q = (db', Normal samples) /\
    (length samples <= length (concat (rows_of <$> results)) * length cols)%nat.
Proof.
  intros Hne.
  pose proof (runQueries_exec (Queries q) db [] []) as Hrun.
  destruct (execAll db (SQL <$> List.filter enabled (Queries q))) as [db' results].
  intros Hsame. unfold getMetric. rewrite Hrun. cbn [app].
  rewrite procList_mapM.
  pose proof (same_columns_rows _ _ Hsame) as Hrows.
  destruct (same_columns_last _ _ Hsame []) as [Hlast|[_ Hnil]].
  - rewrite Hlast.
    set (idx := makeColumnIdx cols 0 ∅).
    assert (Hall : Forall (fun r => exists res,
                             procRows q cols idx r = Normal res /\
                             (length res.1 <= length cols)%nat)
                          (concat (rows_of <$> results))).
    { eapply Forall_impl; [exact Hrows|]. intros r Hr. cbv beta in Hr.
      eexists. split.
      - apply procRows_outcomes; [now apply columnIdx_resolvable|lia].
      - cbn [fst].
        set (outs := rowOutcomes q cols r _).
        assert (Hlen : length outs = length cols).
        { unfold outs, rowOutcomes.
          rewrite length_map, length_zip_with. lia. }
        rewrite <- Hlen. clear. induction outs as [|[[m|] [e|]] outs IH];
          cbn [flat_map samples_of app length]; lia. }
    clear Hrows Hrun Hsame Hlast.
    induction Hall as [|r rows (res & Hr & Hres) _ IH].
    + exists []. split; [reflexivity|simpl; lia].
    + destruct IH as (samples & Hrun' & Hlen).
      cbn [mapM]. rewrite Hr. cbn [mbind outcome_bind].
      destruct (mapM (procRows q cols idx) rows) as [rs|p] eqn:Hm;
        [|discriminate].
      cbn [mbind outcome_bind mret outcome_ret app] in Hrun' |- *.
      injection Hrun' as <-.
      eexists. split; [reflexivity|].
      cbn [fmap list_fmap concat length]. rewrite length_app. lia.
  - rewrite Hnil. exists []. split; [reflexivity|simpl; lia].
Qed.

(** X2. [getMetric] recovers no panic of [procRows]: when the rows before
    it are processed and a row is shorter than the column names of the
    last cursor (a row of an earlier statement that returns fewer
    columns), the call ends with the run-time panic of that row; the
    statements have all been sent by then. *)
Theorem getMetric_short_row (db : DB) (q : QueryInstance)
    (before after : list (list value)) (row : list value) :
  let '(db', results) := execAll db (SQL <$> List.filter enabled (Queries q)) in
  let columnNames := lastColumns results [] in
  let columnIdx := makeColumnIdx columnNames 0 ∅ in
  concat (rows_of <$> results) = before ++ row :: after ->
  Forall (fun r => labels_resolvable q columnIdx r /\
                   (length columnNames <= length r)%nat) before ->
  labels_resolvable q columnIdx row ->
  (length row < length columnNames)%nat ->
  getMetric db q
  = (db', Panic (PanicError (index_out_of_range (length row) (length row)))).
Proof.
  pose proof (runQueries_exec (Queries q) db [] []) as Hrun.
  destruct (execAll db (SQL <$> List.filter enabled (Queries q))) as [db' results].
  intros columnNames columnIdx Hrows Hbefore Hres Hshort.
  unfold getMetric. rewrite Hrun. cbn [app].
  fold columnNames. fold columnIdx. rewrite Hrows. f_equal.
  apply procList_first_panic.
  - eapply Forall_impl; [exact Hbefore|]. intros r [Hr Hlen].
    eexists. now apply procRows_outcomes.
  - unfold procRows.
    rewrite (procDBName_resolvable _ _ _ Hres). cbn [mbind outcome_bind].
    rewrite (procLabels_resolvable _ _ _ _ _ _ Hres). cbn [mbind outcome_bind].
    apply procColumns_short; simpl; lia.
Qed.

Lemma newMetric_sample_inv (q : QueryInstance) (col : option Column)
    (name : string) (v : value) (labels : list string) (m : Metric)
    (o : option error) :
  newMetric q col name v labels = (Some m, o) ->
  o = None /\
  exists c value,
    col = Some c /\ eligible c /\ DbToFloat64 v = (value, true) /\
    MustNewConstMetric (PrometheusDesc c) (PrometheusType c) value labels = Normal m.
Proof.
  unfold newMetric, eligible. destruct col as [c|]; [|discriminate].
  destruct (DisCard c) eqn:Hd; [discriminate|].
  destruct (Histogram c) eqn:Hh; [discriminate|].
  destruct (EqualFold (Usage c) MappedMETRIC) eqn:Hu; [discriminate|].
  destruct (DbToFloat64 v) as [value [|]]; cbn [negb]; [|discriminate].
  destruct (MustNewConstMetric _ _ value labels) as [m'|p] eqn:Hm;
    [|destruct p; discriminate].
  cbn [RecoverErr]. intros [= <- <-]. split; [reflexivity|].
  exists c, value. repeat split; assumption.
Qed.

(** What the column loop adds to its two slices. *)
Lemma procColumns_inv (q : QueryInstance) (labels : list string)
    (names : list string) :
  forall (i : nat) (data : list value) (ms : list Metric) (es : list error)
         (ms' : list Metric) (es' : list error),
    procColumns q names i data labels ms es = Normal (ms', es') ->
    exists new errs,
      ms' = ms ++ new /\ es' = es ++ errs /\
      (length new + length errs <= length names)%nat /\
      forall m, In m new ->
        exists j name v c value,
          names !! j = Some name /\ data !! (i + j)%nat = Some v /\
          GetColumn q name serverLabels = Some c /\ eligible c /\
          DbToFloat64 v = (value, true) /\
          MustNewConstMetric (PrometheusDesc c) (PrometheusType c) value labels
          = Normal m.
Proof.
  induction names as [|name names IH]; intros i data ms es ms' es' Hrun.
  - injection Hrun as <- <-. exists [], []. rewrite !app_nil_r.
    repeat split; [simpl; lia|intros m []].
  - cbn [procColumns] in Hrun.
    destruct (data !! i) as [v|] eqn:Hv;
      [rewrite (index_lookup _ _ _ Hv) in Hrun
      |unfold index in Hrun; rewrite Hv in Hrun; discriminate].
    cbn [mbind outcome_bind] in Hrun.
    destruct (newMetric q (GetColumn q name serverLabels) name v labels)
      as [om oe] eqn:Hnew.
    assert (Hshift : forall m new,
      (forall m, In m new ->
         exists j name0 v0 c value,
           names !! j = Some name0 /\ data !! (S i + j)%nat = Some v0 /\
           GetColumn q name0 serverLabels = Some c /\ eligible c /\
           DbToFloat64 v0 = (value, true) /\
           MustNewConstMetric (PrometheusDesc c) (PrometheusType c) value labels
           = Normal m) ->
      In m new ->
      exists j name0 v0 c value,
        (name :: names) !! j = Some name0 /\ data !! (i + j)%nat = Some v0 /\
        GetColumn q name0 serverLabels = Some c /\ eligible c /\
        DbToFloat64 v0 = (value, true) /\
        MustNewConstMetric (PrometheusDesc c) (PrometheusType c) value labels
        = Normal m).
    { intros m new Hall Hin.
      destruct (Hall m Hin) as (j & n0 & v0 & c & value & Hn & Hd & Hrest).
      exists (S j), n0, v0, c, value. split; [exact Hn|]. split; [|exact Hrest].
      now replace (i + S j)%nat with (S i + j)%nat by lia. }
    destruct om as [m0|], oe as [e|].
    + destruct (IH _ _ _ _ _ _ Hrun) as (new & errs & -> & -> & Hlen & Hall).
      exists new, (e :: errs). rewrite <- app_assoc.
      repeat split; [simpl; lia|]. intros m. now apply Hshift.
    + destruct (IH _ _ _ _ _ _ Hrun) as (new & errs & -> & -> & Hlen & Hall).
      exists (m0 :: new), errs. rewrite <- app_assoc.
      repeat split; [simpl; lia|].
      intros m [<-|Hin]; [|now apply (Hshift m new)].
      destruct (newMetric_sample_inv _ _ _ _ _ _ _ Hnew)
        as (_ & c & value & Hc & Hrest).
      exists 0%nat, name, v, c, value. split; [reflexivity|].
      split; [now rewrite Nat.add_0_r|]. split; [exact Hc|exact Hrest].
    + destruct (IH _ _ _ _ _ _ Hrun) as (new & errs & -> & -> & Hlen & Hall).
      exists new, (e :: errs). rewrite <- app_assoc.
      repeat split; [simpl; lia|]. intros m. now apply Hshift.
    + destruct (IH _ _ _ _ _ _ Hrun) as (new & errs & -> & -> & Hlen & Hall).
      exists new, errs. repeat split; [simpl; lia|].
      intros m. now apply Hshift.
Qed.

Lemma mapM_length {A B : Type} (f : A -> outcome B) (l : list A) (ys : list B) :
  mapM f l = Normal ys -> length ys = length l.
Proof.
  revert ys. induction l as [|x l IH]; intros ys Hys.
  - injection Hys as <-. reflexivity.
  - cbn [mapM] in Hys. destruct (f x) as [y|p]; [|discriminate].
    cbn [mbind outcome_bind] in Hys.
    destruct (mapM f l) as [ys'|p]; [|discriminate].
    injection Hys as <-. simpl. now rewrite (IH ys').
Qed.

(** X4. When [procRows] returns, the row had a value for every column
    name, and the samples and the errors together are at most one per
    column name. *)
Theorem procRows_counts (q : QueryInstance) (names : list string)
    (idx : gmap string nat) (data : list value)
    (samples : list Metric) (errs : list error) :
  procRows q names idx data = Normal (samples, errs) ->
  (length samples + length errs <= length names)%nat /\
  (length names <= length data)%nat.
Proof.
  unfold procRows. intros Hrun.
  destruct (procDBName q idx data) as [dbName|p]; [|discriminate].
  cbn [mbind outcome_bind] in Hrun.
  destruct (procLabels q idx data dbName) as [labels|p]; [|discriminate].
  cbn [mbind outcome_bind] in Hrun. split.
  - destruct (procColumns_inv _ _ _ _ _ _ _ _ _ Hrun)
      as (new & errs' & -> & -> & Hlen & _). exact Hlen.
  - destruct (Nat.le_gt_cases (length names) (length data)) as [Hle|Hgt];
      [exact Hle|].
    rewrite procColumns_short in Hrun by (simpl; lia). discriminate.
Qed.

(** X5. Every sample [procRows] returns is the constant metric of one
    column of the row: the column has a descriptor that is not skipped,
    its value coerces to the number of the sample, and all the samples of
    the row carry the same label values, one per label name of the
    definition. *)
Theorem procRows_sample_origin (q : QueryInstance) (names : list string)
    (idx : gmap string nat) (data : list value)
    (samples : list Metric) (errs : list error) :
  procRows q names idx data = Normal (samples, errs) ->
  exists labels,
    length labels = length (LabelNames q) /\
    forall m, In m samples ->
      exists j name v c value,
        names !! j = Some name /\ data !! j = Some v /\
        GetColumn q name serverLabels = Some c /\ eligible c /\
        DbToFloat64 v = (value, true) /\
        MustNewConstMetric (PrometheusDesc c) (PrometheusType c) value labels
        = Normal m.
Proof.
  unfold procRows. intros Hrun.
  destruct (procDBName q idx data) as [dbName|p]; [|discriminate].
  cbn [mbind outcome_bind] in Hrun.
  destruct (procLabels q idx data dbName) as [labels|p] eqn:Hlabels;
    [|discriminate].
  cbn [mbind outcome_bind] in Hrun.
  exists labels. split; [exact (mapM_length _ _ _ Hlabels)|].
  destruct (procColumns_inv _ _ _ _ _ _ _ _ _ Hrun)
    as (new & errs' & -> & _ & _ & Hall).
  exact Hall.
Qed.

(** X6. For a descriptor that is not skipped, a value that is an integer,
    a float, a boolean, a timestamp or NULL never gives the parsing error:
    [newMetric] returns the constant metric of its coercion, or the
    recovered panic of the constructor; NULL gives the sample NaN. *)
Theorem newMetric_never_parse_error (q : QueryInstance) (c : Column)
    (name : string) (v : value) (labels : list string) :
  eligible c ->
  In (kind_of v) [KInteger; KFloat; KBoolean; KTimestamp; KNull] ->
  newMetric q (Some c) name v labels
  = match MustNewConstMetric (PrometheusDesc c) (PrometheusType c)
            (DbToFloat64 v).1 labels with
    | Normal m => (Some m, None)
    | Panic p => (None, Some (recovered p))
    end /\
  (v = VNil -> (DbToFloat64 v).1 = NaN).
Proof.
  intros (Hd & Hh & Hm) Hkind. split; [|intros ->; reflexivity].
  unfold newMetric. rewrite Hd, Hh, Hm.
  assert (Hok : (DbToFloat64 v).2 = true).
  { destruct v as [z|f|t|b|s|[]| |p]; try reflexivity;
      simpl in Hkind; repeat (destruct Hkind as [Hkind|Hkind]; try discriminate);
      destruct Hkind. }
  destruct (DbToFloat64 v) as [value ok]. cbn [fst snd] in *. subst ok.
  cbn [negb].
  destruct (MustNewConstMetric _ _ value labels) as [m|[e|s]]; reflexivity.
Qed.

(** X7. The rows [getMetric] keeps of one cursor are the rows before the
    first one whose [Scan] fails, each with one value per column name:
    the row loop breaks at a failed [Scan] and the rows after it are
    lost. *)
Theorem scanRows_prefix (dests : nat) (data : list (option (list value))) :
  exists k : nat,
    (k <= length data)%nat /\
    take k data = Some <$> scanRows dests data [] /\
    Forall (fun r => length r = dests) (scanRows dests data []) /\
    ((k < length data)%nat ->
     exists row, data !! k = Some row /\ Scan dests row = None).
Proof.
  induction data as [|row data (k & Hk & Htake & Hlen & Hstop)].
  - exists 0%nat. repeat split; [simpl; lia|constructor|simpl; lia].
  - cbn [scanRows]. destruct (Scan dests row) as [columnData|] eqn:Hscan.
    + exists (S k). rewrite scanRows_app.
      assert (Hrow : row = Some columnData /\ length columnData = dests).
      { destruct row as [vs|]; [|discriminate]. cbn [Scan] in Hscan.
        destruct (decide (length vs = dests)); [|discriminate].
        injection Hscan as <-. now split. }
      destruct Hrow as [-> Hcd].
      split; [simpl; lia|]. split; [cbn; now rewrite Htake|].
      split; [constructor; assumption|].
      intros Hlt. apply Hstop. simpl in Hlt. lia.
    + exists 0%nat. split; [simpl; lia|]. split; [reflexivity|].
      split; [constructor|]. intros _. exists row. now split.
Qed.

Lemma lastIndex_In (n : string) (columnNames : list string) :
  forall i, In n columnNames -> exists j, lastIndex n columnNames i = Some j.
Proof.
  induction columnNames as [|c cs IH]; intros i Hin; [destruct Hin|].
  cbn [lastIndex]. destruct (lastIndex n cs (S i)) as [j|] eqn:Hrest; [eauto|].
  destruct Hin as [->|Hin].
  - rewrite String.eqb_refl. eauto.
  - destruct (IH (S i) Hin) as [j Hj]. congruence.
Qed.

(** X8. The index map [getMetric] builds sends a name only to a position
    where the column names have that name, has an entry for exactly the
    names of the list, and when no name occurs twice it is the inverse of
    the list. *)
Theorem makeColumnIdx_inverse (columnNames : list string) :
  let columnIdx := makeColumnIdx columnNames 0 ∅ in
  (forall n j, columnIdx !! n = Some j ->
     (j < length columnNames)%nat /\ columnNames !! j = Some n) /\
  (forall n, is_Some (columnIdx !! n) <-> In n columnNames) /\
  (NoDup columnNames ->
   forall n j, columnNames !! j = Some n -> columnIdx !! n = Some j).
Proof.
  intros columnIdx.
  assert (Hsound : forall n j, columnIdx !! n = Some j ->
            (j < length columnNames)%nat /\ columnNames !! j = Some n).
  { intros n j. apply columnIdx_in_range. }
  assert (Hcomplete : forall n, In n columnNames -> is_Some (columnIdx !! n)).
  { intros n Hin. unfold columnIdx. rewrite makeColumnIdx_lookup.
    destruct (lastIndex_In n columnNames 0 Hin) as [j ->]. eauto. }
  split; [exact Hsound|]. split.
  - intros n. split; [|apply Hcomplete].
    intros [j Hj]. destruct (Hsound _ _ Hj) as [_ Hat].
    apply list_elem_of_In. eapply list_elem_of_lookup_2. exact Hat.
  - intros Hnodup n j Hat.
    assert (Hin : In n columnNames).
    { apply list_elem_of_In. eapply list_elem_of_lookup_2. exact Hat. }
    destruct (Hcomplete n Hin) as [k Hk].
    destruct (Hsound _ _ Hk) as [_ Hat'].
    rewrite Hk. f_equal.
    eapply NoDup_lookup; [exact Hnodup|exact Hat'|exact Hat].
Qed.

End EngineProperties.

(** ** The compact form of a timestamp *)

(** The number a digit string stands for, when a string is put before it *)
Lemma of_uint_leading (d : Decimal.uint) :
  let p := (10 ^ Unsigned.usize d)%N in
  Pos.of_uint (Decimal.D0 d) = Pos.of_uint d /\
  Pos.of_uint (Decimal.D1 d) = (1 * p + Pos.of_uint d)%N /\
  Pos.of_uint (Decimal.D2 d) = (2 * p + Pos.of_uint d)%N /\
  Pos.of_uint (Decimal.D3 d) = (3 * p + Pos.of_uint d)%N /\
  Pos.of_uint (Decimal.D4 d) = (4 * p + Pos.of_uint d)%N /\
  Pos.of_uint (Decimal.D5 d) = (5 * p + Pos.of_uint d)%N /\
  Pos.of_uint (Decimal.D6 d) = (6 * p + Pos.of_uint d)%N /\
  Pos.of_uint (Decimal.D7 d) = (7 * p + Pos.of_uint d)%N /\
  Pos.of_uint (Decimal.D8 d) = (8 * p + Pos.of_uint d)%N /\
  Pos.of_uint (Decimal.D9 d) = (9 * p + Pos.of_uint d)%N.
Proof.
  intros p. rewrite !Unsigned.of_uint_alt. unfold Decimal.rev. cbn [Decimal.revapp].
  rewrite !Unsigned.of_lu_revapp. fold p. cbn [Unsigned.of_lu].
  repeat split; lia.
Qed.

Lemma uint_of_string_app (s2 : string) (d2 : Decimal.uint) :
  NilEmpty.uint_of_string s2 = Some d2 ->
  forall s1 d1,
    NilEmpty.uint_of_string s1 = Some d1 ->
    exists d,
      NilEmpty.uint_of_string (s1 +:+ s2) = Some d /\
      Unsigned.usize d = (Unsigned.usize d1 + Unsigned.usize d2)%N /\
      Pos.of_uint d = (Pos.of_uint d1 * 10 ^ Unsigned.usize d2 + Pos.of_uint d2)%N.
Proof.
  intros Hs2. induction s1 as [|a s1 IH]; intros d1 Hs1.
  - injection Hs1 as <-. exists d2. change ("" +:+ s2) with s2.
    split; [exact Hs2|]. cbn. split; lia.
  - cbn [NilEmpty.uint_of_string] in Hs1.
    destruct (NilEmpty.uint_of_string s1) as [d1'|]; [|discriminate].
    destruct (IH d1' eq_refl) as (d & Hd & Hsize & Hval).
    change (String a s1 +:+ s2) with (String a (s1 +:+ s2)).
    cbn [NilEmpty.uint_of_string]. rewrite Hd.
    pose proof (of_uint_leading d) as Hl. pose proof (of_uint_leading d1') as Hl1.
    cbv zeta in Hl, Hl1.
    apply uint_of_char_spec in Hs1.
    destruct Hs1 as [[-> ->]|[[-> ->]|[[-> ->]|[[-> ->]|[[-> ->]|[[-> ->]|
                    [[-> ->]|[[-> ->]|[[-> ->]|[-> ->]]]]]]]]]];
      eexists; (split; [reflexivity|]); cbn [Unsigned.usize];
      (split; [lia|]);
      rewrite Hsize, N.pow_add_r in Hl; nia.
Qed.

Lemma three_digits_parse (m : Z) :
  (0 <= m < 1000)%Z ->
  exists d, NilEmpty.uint_of_string (three_digits m) = Some d /\
            Unsigned.usize d = 3%N /\ Pos.of_uint d = Z.to_N m.
Proof.
  intros Hm.
  assert (Hall : forallb
            (fun n => match NilEmpty.uint_of_string (three_digits (Z.of_nat n)) with
                      | Some d => N.eqb (Unsigned.usize d) 3
                                  && N.eqb (Pos.of_uint d) (N.of_nat n)
                      | None => false
                      end) (seq 0 1000) = true) by (vm_compute; reflexivity).
  rewrite forallb_forall in Hall.
  specialize (Hall (Z.to_nat m)). rewrite Z2Nat.id in Hall by lia.
  destruct (NilEmpty.uint_of_string (three_digits m)) as [d|];
    [|discriminate Hall; apply in_seq; lia].
  exists d. split; [reflexivity|].
  apply andb_prop in Hall as [Hsize Hval]; [|apply in_seq; lia].
  apply N.eqb_eq in Hsize, Hval. split; [exact Hsize|]. rewrite Hval. lia.
Qed.

Lemma int_of_digits (s : string) (d : Decimal.uint) :
  s <> "" -> NilEmpty.uint_of_string s = Some d ->
  NilZero.int_of_string s = Some (Decimal.Pos d).
Proof.
  destruct s as [|a s]; [contradiction|]. intros _ Hd.
  unfold NilZero.int_of_string, NilZero.uint_of_string.
  destruct (Ascii.eqb_spec a "-") as [->|_]; [|now rewrite Hd].
  cbn in Hd. destruct (NilEmpty.uint_of_string s); discriminate.
Qed.

Lemma Sprint_int_digits (p : positive) :
  Sprint_int (Z.pos p) = NilEmpty.string_of_uint (Pos.to_uint p) /\
  Sprint_int (Z.neg p) = String "-" (NilEmpty.string_of_uint (Pos.to_uint p)).
Proof.
  unfold Sprint_int. cbn [Z.to_int NilZero.string_of_int].
  pose proof (Unsigned.to_uint_nonnil p) as Hnil.
  unfold NilZero.string_of_uint.
  destruct (Pos.to_uint p); [contradiction|..]; split; reflexivity.
Qed.

Section CompactTime.
Context `{GoLib}.

(** X10. The compact string of a timestamp reads as a decimal number: the
    seconds times 1000 plus the milliseconds when the seconds are not
    negative, the seconds times 1000 minus the milliseconds when they are
    negative (the digits of the milliseconds follow the digits of the
    seconds, whatever the sign is). *)
Theorem DbToString_compact_reads (v : Time) :
  valid_value (VTime v) ->
  option_map Z.of_int (NilZero.int_of_string (DbToString (VTime v) false).1)
  = Some (if (Unix v <? 0)%Z
          then (Unix v * 1000 - Nanosecond v / 1000000)%Z
          else (Unix v * 1000 + Nanosecond v / 1000000)%Z).
Proof.
  intros [_ Hns]. cbn [DbToString fst].
  rewrite Sprint_03d_three_digits by (apply millis_range; exact Hns).
  rewrite Z.quot_div_nonneg by lia.
  set (m := (Nanosecond v / 1000000)%Z).
  assert (Hm : (0 <= m < 1000)%Z).
  { unfold m. split; [apply Z.div_pos; lia|apply Z.div_lt_upper_bound; lia]. }
  destruct (three_digits_parse m Hm) as (d2 & Hd2 & Hsize2 & Hval2).
  destruct (Unix v) as [|p|p].
  - change (Sprint_int 0) with "0".
    destruct (uint_of_string_app _ _ Hd2 "0" (Decimal.D0 Decimal.Nil) eq_refl)
      as (d & Hd & _ & Hval).
    rewrite (int_of_digits _ d) by (trivial; discriminate).
    cbn [option_map Z.of_int]. unfold Z.of_uint. f_equal.
    rewrite Hval, Hval2. cbn. lia.
  - destruct (Sprint_int_digits p) as [-> _].
    destruct (uint_of_string_app _ _ Hd2 _ _ (NilEmpty.usu (Pos.to_uint p)))
      as (d & Hd & _ & Hval).
    rewrite (int_of_digits _ d); [|
      pose proof (Unsigned.to_uint_nonnil p);
      destruct (Pos.to_uint p); [contradiction|discriminate..] | exact Hd].
    cbn [option_map Z.of_int]. unfold Z.of_uint. f_equal.
    rewrite Hval, Hval2, Hsize2, Unsigned.of_to.
    change (Z.pos p <? 0)%Z with false. cbv iota. lia.
  - destruct (Sprint_int_digits p) as [_ ->].
    destruct (uint_of_string_app _ _ Hd2 _ _ (NilEmpty.usu (Pos.to_uint p)))
      as (d & Hd & _ & Hval).
    change (String "-" ?s +:+ ?t) with (String "-" (s +:+ t)).
    unfold NilZero.int_of_string. cbn [Ascii.eqb Bool.eqb].
    unfold NilZero.uint_of_string. rewrite Hd.
    destruct (NilEmpty.string_of_uint (Pos.to_uint p) +:+ three_digits m) eqn:Hs.
    { pose proof (Unsigned.to_uint_nonnil p).
      destruct (Pos.to_uint p); [contradiction|discriminate..]. }
    cbn [option_map Z.of_int]. unfold Z.of_uint. f_equal.
    rewrite Hval, Hval2, Hsize2, Unsigned.of_to.
    change (Z.neg p <? 0)%Z with true. cbv iota. lia.
Qed.

End CompactTime.

(** ** Character sets *)

Section Charsets.
Context `{GoLib}.

Lemma GetMapCharset_range (s : string) :
  GetMapCharset s = "UTF-8" \/ GetMapCharset s = "GBK"
  \/ (GetMapCharset s = s /\ CharSetMap !! ToUpper s = None).
Proof.
  unfold GetMapCharset.
  destruct (CharSetMap !! ToUpper s) as [o|] eqn:Ho; [|right; right; now split].
  unfold CharSetMap in Ho.
  apply lookup_insert_Some in Ho as [[_ <-]|[_ Ho]]; [right; left; reflexivity|].
  apply lookup_insert_Some in Ho as [[_ <-]|[_ Ho]]; [right; left; reflexivity|].
  apply lookup_insert_Some in Ho as [[_ <-]|[_ Ho]]; [left; reflexivity|].
  rewrite lookup_empty in Ho. discriminate.
Qed.

Lemma GetMapCharset_idempotent (s : string) :
  GetMapCharset (GetMapCharset s) = GetMapCharset s.
Proof.
  assert (Hutf : GetMapCharset "UTF-8" = "UTF-8") by (vm_compute; reflexivity).
  assert (Hgbk : GetMapCharset "GBK" = "GBK") by (vm_compute; reflexivity).
  destruct (GetMapCharset_range s) as [Hr|[Hr|[Hr _]]]; rewrite Hr; assumption.
Qed.

(** X9. [GetMapCharset] returns [UTF-8], [GBK] or its argument, and
    applying it twice gives what applying it once gives. *)
Theorem GetMapCharset_fixed (s : string) :
  (GetMapCharset s = "UTF-8" \/ GetMapCharset s = "GBK" \/ GetMapCharset s = s) /\
  GetMapCharset (GetMapCharset s) = GetMapCharset s.
Proof.
  split; [|apply GetMapCharset_idempotent].
  destruct (GetMapCharset_range s) as [Hr|[Hr|[Hr _]]]; auto.
Qed.

(** X16. [DecodeByte] decodes under a name and under the name
    [GetMapCharset] gives for it alike; when it returns an error it
    returns the input bytes; when it returns no error the bytes are what
    the decoder of the mapped name reads; and a name that is [GB18030] or
    [GBK] in upper case is decoded as [GBK]. *)
Theorem DecodeByte_charset (b : list byte) (charset : string) :
  DecodeByte b (GetMapCharset charset) = DecodeByte b charset /\
  (forall err, (DecodeByte b charset).2 = Some err -> (DecodeByte b charset).1 = b) /\
  ((DecodeByte b charset).2 = None ->
   exists enc, MIB_Encoding (GetMapCharset charset) = inl enc /\
               ReadAllDecoded enc b = inl (DecodeByte b charset).1) /\
  (ToUpper charset = "GB18030" \/ ToUpper charset = "GBK" ->
   DecodeByte b charset = DecodeByte b "GBK").
Proof.
  split; [|split; [|split]].
  - unfold DecodeByte. now rewrite GetMapCharset_idempotent.
  - intros err. unfold DecodeByte.
    destruct (MIB_Encoding (GetMapCharset charset)) as [enc|e]; [|reflexivity].
    destruct (ReadAllDecoded enc b) as [tmp|e]; [discriminate|reflexivity].
  - unfold DecodeByte.
    destruct (MIB_Encoding (GetMapCharset charset)) as [enc|e]; [|discriminate].
    destruct (ReadAllDecoded enc b) as [tmp|e] eqn:Hread; [|discriminate].
    intros _. exists enc. split; [reflexivity|exact Hread].
  - intros Hup.
    assert (Hgbk : GetMapCharset "GBK" = "GBK") by (vm_compute; reflexivity).
    assert (Hmap : GetMapCharset charset = "GBK").
    { unfold GetMapCharset. destruct Hup as [-> | ->]; reflexivity. }
    unfold DecodeByte. now rewrite Hmap, Hgbk.
Qed.

End Charsets.

(** ** The helpers on slices and strings *)

(** X11. [SafeDereference] returns one element per pointer, in order: the
    value pointed to, or the zero value for a nil pointer; on pointers
    that are all set it gives back the values. *)
Theorem SafeDereference_elements {T : Type} (zeroValue : T) (s : list (option T)) :
  length (SafeDereference zeroValue s) = length s /\
  (forall i, SafeDereference zeroValue s !! i = default zeroValue <$> s !! i) /\
  (forall l : list T, SafeDereference zeroValue (Some <$> l) = l).
Proof.
  assert (Hloop : forall (s : list (option T)) resolved,
            SafeDereference_loop zeroValue s resolved
            = resolved ++ (default zeroValue <$> s)).
  { clear s. induction s as [|v s IH]; intros resolved; cbn [SafeDereference_loop].
    - now rewrite app_nil_r.
    - destruct v as [x|]; rewrite IH, <- app_assoc; reflexivity. }
  unfold SafeDereference. split; [|split].
  - rewrite Hloop. cbn [app]. apply length_fmap.
  - intros i. rewrite Hloop. cbn [app]. apply list_lookup_fmap.
  - intros l. rewrite Hloop. cbn [app]. rewrite <- list_fmap_compose.
    apply list_fmap_id.
Qed.

Lemma Split_no_sep (p : string) (sep : ascii) :
  contains_byte sep p = false -> Split p sep = [p].
Proof.
  unfold contains_byte. induction p as [|c p IH]; [reflexivity|].
  cbn [list_ascii_of_string existsb Split]. intros Hc.
  apply orb_false_iff in Hc as [Hc Hp].
  rewrite Ascii.eqb_sym, Hc, (IH Hp). reflexivity.
Qed.

Lemma Split_piece (p rest : string) (sep : ascii) :
  contains_byte sep p = false ->
  Split (p +:+ String sep rest) sep = p :: Split rest sep.
Proof.
  unfold contains_byte. induction p as [|c p IH].
  - intros _. change ("" +:+ String sep rest) with (String sep rest).
    cbn [Split]. now rewrite Ascii.eqb_refl.
  - cbn [list_ascii_of_string existsb]. intros Hc.
    apply orb_false_iff in Hc as [Hc Hp].
    change (String c p +:+ String sep rest) with (String c (p +:+ String sep rest)).
    cbn [Split]. rewrite Ascii.eqb_sym, Hc, (IH Hp). reflexivity.
Qed.

Lemma Split_Join (pieces : list string) (sep : ascii) :
  pieces <> [] ->
  Forall (fun p => contains_byte sep p = false) pieces ->
  Split (Join pieces (String sep "")) sep = pieces.
Proof.
  intros Hne Hall. induction Hall as [|p pieces Hp Hall IH]; [contradiction|].
  destruct pieces as [|p' pieces].
  - cbn. now apply Split_no_sep.
  - change (Join (p :: p' :: pieces) (String sep ""))
      with (p +:+ String sep (Join (p' :: pieces) (String sep ""))).
    rewrite (Split_piece _ _ _ Hp), IH by discriminate. reflexivity.
Qed.

Section ParsingProperties.
Context `{GoUnicode}.

Lemma skipSpace_edge (c : ascii) (rest : list ascii) :
  edge_byte c = true -> skipSpace (c :: rest) = (false, c :: rest).
Proof.
  unfold edge_byte. intros Hc. apply andb_prop in Hc as [Hascii Hspace].
  cbn [skipSpace].
  destruct (Nat.leb_spec 128 (nat_of_ascii c)) as [Hge|_];
    [apply Nat.ltb_lt in Hascii; lia|].
  apply negb_true_iff in Hspace. now rewrite Hspace.
Qed.

Lemma last_cons {A : Type} (rest : list A) :
  forall d c : A, List.last (d :: rest) c = List.last rest d.
Proof.
  induction rest as [|x rest IH]; intros d c; [reflexivity|].
  change (List.last (d :: x :: rest) c) with (List.last (x :: rest) c).
  rewrite (IH x c), (IH x d). reflexivity.
Qed.

Lemma rev_last_head {A : Type} (rest : list A) :
  forall c : A, exists tl, rev (c :: rest) = List.last rest c :: tl.
Proof.
  induction rest as [|d rest IH]; intros c.
  - exists []. reflexivity.
  - destruct (IH d) as [tl Htl].
    exists (tl ++ [c]). rewrite last_cons.
    change (rev (c :: d :: rest)) with (rev (d :: rest) ++ [c]).
    rewrite Htl. reflexivity.
Qed.

Lemma TrimSpace_trimmed (s : string) :
  trimmed s = true -> TrimSpace s = s.
Proof.
  unfold trimmed, TrimSpace.
  destruct (list_ascii_of_string s) as [|c rest] eqn:Hs; [discriminate|].
  intros Hedge. apply andb_prop in Hedge as [Hc Hlast].
  rewrite (skipSpace_edge _ _ Hc).
  destruct (rev_last_head rest c) as [tl Htl]. rewrite Htl.
  rewrite (skipSpace_edge _ _ Hlast), <- Htl, rev_involutive, <- Hs.
  apply string_of_list_ascii_of_string.
Qed.

Lemma trimmed_nonempty (s : string) : trimmed s = true -> s <> "".
Proof. intros Ht ->. discriminate Ht. Qed.

Lemma list_ascii_of_string_append (a b : string) :
  list_ascii_of_string (a +:+ b) = list_ascii_of_string a ++ list_ascii_of_string b.
Proof.
  induction a as [|c a IH]; [reflexivity|].
  change (String c a +:+ b) with (String c (a +:+ b)).
  cbn [list_ascii_of_string app]. now rewrite IH.
Qed.

Lemma last_app_cons {A : Type} (l rb : list A) (d : A) :
  forall c, List.last (l ++ d :: rb) c = List.last rb d.
Proof.
  induction l as [|x l IH]; intros c.
  - apply last_cons.
  - change ((x :: l) ++ d :: rb) with (x :: (l ++ d :: rb)).
    rewrite last_cons. apply IH.
Qed.

Lemma trimmed_app (a mid b : string) :
  trimmed a = true -> trimmed b = true -> trimmed (a +:+ mid +:+ b) = true.
Proof.
  unfold trimmed. rewrite !list_ascii_of_string_append.
  destruct (list_ascii_of_string a) as [|c ra]; [discriminate|].
  destruct (list_ascii_of_string b) as [|d rb]; [discriminate|].
  intros Ha Hb. apply andb_prop in Ha as [Hc _]. apply andb_prop in Hb as [_ Hd].
  cbn [app]. rewrite Hc. cbn [andb].
  rewrite app_assoc, last_app_cons. exact Hd.
Qed.

Lemma trimmed_Join (pieces : list string) (sep : string) :
  pieces <> [] -> Forall (fun p => trimmed p = true) pieces ->
  trimmed (Join pieces sep) = true.
Proof.
  intros Hne Hall. induction Hall as [|p pieces Hp Hall IH]; [contradiction|].
  destruct pieces as [|p' pieces]; [exact Hp|].
  change (Join (p :: p' :: pieces) sep)
    with (p +:+ sep +:+ Join (p' :: pieces) sep).
  apply trimmed_app; [exact Hp|]. apply IH. discriminate.
Qed.

Lemma parseCSV_loop_trimmed (parts tags : list string) :
  Forall (fun p => trimmed p = true) parts ->
  parseCSV_loop parts tags = tags ++ parts.
Proof.
  intros Hall. revert tags.
  induction Hall as [|p parts Hp _ IH]; intros tags; cbn [parseCSV_loop].
  - now rewrite app_nil_r.
  - rewrite (TrimSpace_trimmed _ Hp).
    destruct p as [|c p]; [discriminate Hp|]. cbn [String.length Nat.ltb Nat.leb].
    rewrite IH, <- app_assoc. reflexivity.
Qed.

(** X13. [parseCSV] reads back a list of tags joined by commas, when each
    tag starts and ends with an ASCII byte that is no space and holds no
    comma. *)
Theorem parseCSV_Join (tags : list string) :
  Forall (fun t => trimmed t = true /\ contains_byte "," t = false) tags ->
  parseCSV (Join tags ",") = tags.
Proof.
  intros Hall. destruct tags as [|t tags]; [reflexivity|].
  assert (Htrim : Forall (fun p => trimmed p = true) (t :: tags)).
  { eapply Forall_impl; [exact Hall|]. now intros p [Hp _]. }
  assert (Hsep : Forall (fun p => contains_byte "," p = false) (t :: tags)).
  { eapply Forall_impl; [exact Hall|]. now intros p [_ Hp]. }
  assert (Hcons : t :: tags <> []) by discriminate.
  unfold parseCSV.
  rewrite (TrimSpace_trimmed _ (trimmed_Join _ "," Hcons Htrim)).
  pose proof (trimmed_nonempty _ (trimmed_Join _ "," Hcons Htrim)) as Hne.
  assert (Hlen : (String.length (Join (t :: tags) ",") =? 0)%nat = false).
  { destruct (Join (t :: tags) ","); [now contradiction Hne|reflexivity]. }
  rewrite Hlen.
  rewrite (Split_Join _ "," Hcons Hsep).
  rewrite (parseCSV_loop_trimmed _ _ Htrim). reflexivity.
Qed.

Lemma parseCSV_loop_inv (parts : list string) :
  forall tags t,
    In t (parseCSV_loop parts tags) ->
    In t tags \/ (t <> "" /\ exists p, In p parts /\ t = TrimSpace p).
Proof.
  induction parts as [|p parts IH]; intros tags t Hin; [now left|].
  cbn [parseCSV_loop] in Hin.
  destruct (0 <? String.length (TrimSpace p))%nat eqn:Hlen.
  - destruct (IH _ _ Hin) as [Hacc|(Hne & p' & Hp' & ->)].
    + apply in_app_or in Hacc as [Hacc|[<-|[]]]; [now left|].
      right. split; [|exists p; split; [now left|reflexivity]].
      intros Hempty. rewrite Hempty in Hlen. discriminate.
    + right. split; [exact Hne|]. exists p'. split; [now right|reflexivity].
  - destruct (IH _ _ Hin) as [Hacc|(Hne & p' & Hp' & ->)]; [now left|].
    right. split; [exact Hne|]. exists p'. split; [now right|reflexivity].
Qed.

(** X12. Every tag [parseCSV] returns is not empty and is the trimmed form
    of one of the comma-separated parts of the trimmed input. *)
Theorem parseCSV_tags (s : string) (t : string) :
  In t (parseCSV s) ->
  t <> "" /\ exists p, In p (Split (TrimSpace s) ",") /\ t = TrimSpace p.
Proof.
  unfold parseCSV.
  destruct (String.length (TrimSpace s) =? 0)%nat; [intros []|].
  destruct (length (parseCSV_loop (Split (TrimSpace s) ",") []) =? 0)%nat;
    [intros []|].
  intros Hin. destruct (parseCSV_loop_inv _ _ _ Hin) as [[]|Hres]. exact Hres.
Qed.

Lemma parseConstLabels_loop_inv (P : string -> string -> Prop) (parts : list string) :
  (forall k v, k <> "" -> v <> "" -> P k v) ->
  forall labels : Labels,
    (forall k v, labels !! k = Some v -> P k v) ->
    forall k v, parseConstLabels_loop parts labels !! k = Some v -> P k v.
Proof.
  intros HP. induction parts as [|p parts IH]; intros labels Hlabels;
    [exact Hlabels|].
  cbn [parseConstLabels_loop].
  destruct (Split (TrimSpace p) "=") as [|k0 [|v0 [|]]]; try (now apply IH).
  destruct (String.eqb_spec (TrimSpace k0) "") as [|Hk]; [now apply IH|].
  destruct (String.eqb_spec (TrimSpace v0) "") as [|Hv]; [now apply IH|].
  cbn [orb]. apply IH. intros k v Hkv.
  apply lookup_insert_Some in Hkv as [[<- <-]|[_ Hkv]]; [now apply HP|].
  now apply Hlabels.
Qed.

(** X14. When [parseConstLabels] returns a map, the map is not empty and
    none of its keys or values is the empty string. *)
Theorem parseConstLabels_entries (s : string) (labels : Labels) :
  parseConstLabels s = Some labels ->
  labels <> ∅ /\
  forall key value, labels !! key = Some value -> key <> "" /\ value <> "".
Proof.
  unfold parseConstLabels.
  destruct (String.length (TrimSpace s) =? 0)%nat; [discriminate|].
  destruct (size (parseConstLabels_loop (Split (TrimSpace s) ",") ∅) =? 0)%nat
    eqn:Hsize; [discriminate|].
  intros [= <-]. split.
  - intros Hempty. rewrite Hempty, map_size_empty in Hsize. discriminate.
  - apply (parseConstLabels_loop_inv (fun k v => k <> "" /\ v <> ""));
      [now split|].
    intros k v Hkv. rewrite lookup_empty in Hkv. discriminate.
Qed.

Lemma contains_byte_append (c : ascii) (a b : string) :
  contains_byte c (a +:+ b) = contains_byte c a || contains_byte c b.
Proof.
  unfold contains_byte. rewrite list_ascii_of_string_append. apply existsb_app.
Qed.

Lemma parseConstLabels_loop_plain (pairs : list (string * string)) :
  Forall (fun kv => plain kv.1 /\ plain kv.2) pairs ->
  forall labels : Labels,
    parseConstLabels_loop (map (fun kv => kv.1 +:+ "=" +:+ kv.2) pairs) labels
    = fold_left (fun m kv => <[kv.1 := kv.2]> m) pairs labels.
Proof.
  induction 1 as [|[k v] pairs [(Hk & _ & Hke) (Hv & _ & Hve)] _ IH];
    intros labels; [reflexivity|].
  cbn [map parseConstLabels_loop fold_left fst snd] in *.
  rewrite (TrimSpace_trimmed _ (trimmed_app k "=" v Hk Hv)).
  change (k +:+ "=" +:+ v) with (k +:+ String "=" v).
  rewrite (Split_piece _ _ _ Hke), (Split_no_sep _ _ Hve).
  rewrite (TrimSpace_trimmed _ Hk), (TrimSpace_trimmed _ Hv).
  destruct (String.eqb_spec k "") as [->|_]; [discriminate Hk|].
  destruct (String.eqb_spec v "") as [->|_]; [discriminate Hv|].
  cbn [orb]. apply IH.
Qed.

Lemma fold_insert_nonempty (pairs : list (string * string)) :
  forall labels : Labels,
    labels <> ∅ ->
    fold_left (fun m kv => <[kv.1 := kv.2]> m) pairs labels <> ∅.
Proof.
  induction pairs as [|kv pairs IH]; intros labels Hne; [exact Hne|].
  cbn [fold_left]. apply IH. apply insert_non_empty.
Qed.

(** X15. [parseConstLabels] reads back pairs written as [key=value] and
    joined by commas, when keys and values are trimmed and hold no comma
    and no equals sign: nil for no pair, else the map of the pairs, where
    a later pair replaces an earlier one with the same key. *)
Theorem parseConstLabels_Join (pairs : list (string * string)) :
  Forall (fun kv => plain kv.1 /\ plain kv.2) pairs ->
  parseConstLabels (Join (map (fun kv => kv.1 +:+ "=" +:+ kv.2) pairs) ",")
  = match pairs with
    | [] => None
    | _ => Some (fold_left (fun m kv => <[kv.1 := kv.2]> m) pairs ∅)
    end.
Proof.
  intros Hall. destruct pairs as [|kv pairs]; [reflexivity|].
  set (parts := map (fun kv => kv.1 +:+ "=" +:+ kv.2) (kv :: pairs)).
  assert (Hcons : parts <> []) by discriminate.
  assert (Htrim : Forall (fun p => trimmed p = true) parts).
  { unfold parts. apply Forall_forall. intros p Hp.
    apply list_elem_of_In, in_map_iff in Hp as ([k v] & <- & Hin).
    rewrite Forall_forall in Hall.
    destruct (Hall (k, v) (proj2 (list_elem_of_In _ _) Hin)) as [(Hk & _) (Hv & _)].
    now apply trimmed_app. }
  assert (Hsep : Forall (fun p => contains_byte "," p = false) parts).
  { unfold parts. apply Forall_forall. intros p Hp.
    apply list_elem_of_In, in_map_iff in Hp as ([k v] & <- & Hin).
    rewrite Forall_forall in Hall.
    destruct (Hall (k, v) (proj2 (list_elem_of_In _ _) Hin))
      as [(_ & Hk & _) (_ & Hv & _)].
    cbn [fst snd] in *. rewrite !contains_byte_append, Hk, Hv. reflexivity. }
  unfold parseConstLabels.
  rewrite (TrimSpace_trimmed _ (trimmed_Join _ "," Hcons Htrim)).
  pose proof (trimmed_nonempty _ (trimmed_Join _ "," Hcons Htrim)) as Hne.
  assert (Hlen : (String.length (Join parts ",") =? 0)%nat = false).
  { destruct (Join parts ","); [now contradiction Hne|reflexivity]. }
  rewrite Hlen, (Split_Join _ "," Hcons Hsep).
  unfold parts. rewrite (parseConstLabels_loop_plain _ Hall).
  assert (Hsize : (size (fold_left (fun m kv0 => <[kv0.1 := kv0.2]> m)
                           (kv :: pairs) (∅ : Labels)) =? 0)%nat = false).
  { apply Nat.eqb_neq. intros Hs. apply map_size_empty_iff in Hs.
    revert Hs. cbn [fold_left]. apply fold_insert_nonempty, insert_non_empty. }
  rewrite Hsize. reflexivity.
Qed.

End ParsingProperties.

(** ** The release number of a GaussDB kernel *)

Lemma digitsValue_uint (u : Decimal.uint) :
  forall a : N,
    digitsValue (NilEmpty.string_of_uint u) (Z.of_N a)
    = Some (Z.of_N (a * 10 ^ Unsigned.usize u + Pos.of_uint u)).
Proof.
  induction u; intros a;
    try (pose proof (of_uint_leading u) as Hl; cbv zeta in Hl;
         destruct Hl as (H0 & H1 & H2 & H3 & H4 & H5 & H6 & H7 & H8 & H9);
         cbn [NilEmpty.string_of_uint digitsValue];
         match goal with
         | |- context [isDigit ?c] =>
             change (isDigit c) with true; cbv iota;
             let d := eval vm_compute in (Z.of_nat (nat_of_ascii c) - 48)%Z in
             change (Z.of_nat (nat_of_ascii c) - 48)%Z with d;
             replace (Z.of_N a * 10 + d)%Z with (Z.of_N (a * 10 + Z.to_N d)) by lia
         end;
         rewrite IHu; f_equal; f_equal; cbn [Unsigned.usize];
         rewrite ?H0, ?H1, ?H2, ?H3, ?H4, ?H5, ?H6, ?H7, ?H8, ?H9;
         rewrite N.pow_succ_r'; cbn [Z.to_N]; lia).
  cbn. f_equal. lia.
Qed.

Lemma all_digits_uint (u : Decimal.uint) :
  all_digits (NilEmpty.string_of_uint u) = true.
Proof. unfold all_digits. induction u; cbn; auto. Qed.

Lemma all_digits_app (a b : string) :
  all_digits (a +:+ b) = all_digits a && all_digits b.
Proof.
  unfold all_digits. induction a as [|c a IH]; [reflexivity|].
  change (String c a +:+ b) with (String c (a +:+ b)).
  cbn [list_ascii_of_string forallb]. now rewrite IH, andb_assoc.
Qed.

Lemma all_digits_zeros (k : nat) : all_digits (zeros k) = true.
Proof. induction k; [reflexivity|exact IHk]. Qed.

Lemma digitsValue_zeros (k : nat) (s : string) :
  digitsValue (zeros k +:+ s) 0 = digitsValue s 0.
Proof.
  induction k as [|k IH]; [reflexivity|].
  change (zeros (S k) +:+ s) with (String "0" (zeros k +:+ s)).
  cbn [digitsValue]. change (isDigit "0") with true. exact IH.
Qed.

(** A number written in decimal, with leading zeros. *)
Lemma Sprint_int_uint (n : Z) :
  (0 <= n)%Z ->
  exists u, Sprint_int n = NilEmpty.string_of_uint u /\ Sprint_int n <> "" /\
            Z.of_N (Pos.of_uint u) = n.
Proof.
  intros Hn. destruct n as [|p|p]; [| |lia].
  - exists (Decimal.D0 Decimal.Nil). repeat split. discriminate.
  - destruct (Sprint_int_digits p) as [Hp _]. exists (Pos.to_uint p).
    split; [exact Hp|]. split.
    + rewrite Hp. pose proof (Unsigned.to_uint_nonnil p).
      destruct (Pos.to_uint p); [contradiction|discriminate..].
    + rewrite Unsigned.of_to. reflexivity.
Qed.

Lemma padded_digits (k : nat) (n : Z) :
  (0 <= n)%Z ->
  let s := zeros k +:+ Sprint_int n in
  all_digits s = true /\ s <> "" /\ digitsValue s 0 = Some n.
Proof.
  intros Hn s. destruct (Sprint_int_uint n Hn) as (u & Hu & Hne & Hval).
  unfold s. split; [|split].
  - rewrite all_digits_app, all_digits_zeros, Hu. apply all_digits_uint.
  - destruct k; [exact Hne|discriminate].
  - rewrite digitsValue_zeros, Hu.
    pose proof (digitsValue_uint u 0) as Hd. change (Z.of_N 0) with 0%Z in Hd.
    rewrite Hd. f_equal. lia.
Qed.

Lemma Atoi_digits (s : string) (n : Z) :
  all_digits s = true -> s <> "" -> digitsValue s 0 = Some n ->
  Atoi s = Z.min (2 ^ 63 - 1) n.
Proof.
  intros Hall Hne Hval. unfold Atoi.
  destruct s as [|c s]; [contradiction|].
  assert (Hc : isDigit c = true).
  { unfold all_digits in Hall. cbn in Hall. now apply andb_prop in Hall as [Hc _]. }
  destruct (Ascii.eqb_spec c "-") as [->|Hminus]; [discriminate Hc|].
  destruct (Ascii.eqb_spec c "+") as [->|Hplus]; [discriminate Hc|].
  assert (Hsplit : match String c s with
                   | String "-" rest => (true, rest)
                   | String "+" rest => (false, rest)
                   | _ => (false, String c s)
                   end = (false, String c s)).
  { destruct c as [[] [] [] [] [] [] [] []]; try reflexivity;
      first [now contradiction Hminus|now contradiction Hplus]. }
  rewrite Hsplit, Hval. reflexivity.
Qed.

Lemma digitRun_digits (s rest : string) :
  all_digits s = true -> starts_with_digit rest = false ->
  digitRun (s +:+ rest) = (s, rest).
Proof.
  unfold all_digits. induction s as [|c s IH]; intros Hall Hrest.
  - change ("" +:+ rest) with rest. destruct rest as [|c rest]; [reflexivity|].
    cbn in Hrest |- *. now rewrite Hrest.
  - cbn in Hall. apply andb_prop in Hall as [Hc Hall].
    change (String c s +:+ rest) with (String c (s +:+ rest)).
    cbn [digitRun]. rewrite Hc, (IH Hall Hrest). reflexivity.
Qed.

Lemma releaseRe_matchHere_groups (g1 g2 g3 tail : string) :
  all_digits g1 = true -> g1 <> "" ->
  all_digits g2 = true -> g2 <> "" ->
  all_digits g3 = true -> g3 <> "" ->
  starts_with_digit tail = false ->
  releaseRe_matchHere (g1 +:+ "R" +:+ g2 +:+ "C" +:+ g3 +:+ tail)
  = Some [g1 +:+ "R" +:+ g2 +:+ "C" +:+ g3; g1; g2; g3].
Proof.
  intros H1 N1 H2 N2 H3 N3 Htail. unfold releaseRe_matchHere.
  rewrite (digitRun_digits g1 _ H1) by reflexivity.
  destruct (String.eqb_spec g1 "") as [|_]; [contradiction|].
  change ("R" +:+ ?x) with (String "R" x). cbv beta iota.
  rewrite (digitRun_digits g2 _ H2) by reflexivity.
  destruct (String.eqb_spec g2 "") as [|_]; [contradiction|].
  change ("C" +:+ ?x) with (String "C" x). cbv beta iota.
  rewrite (digitRun_digits g3 _ H3 Htail).
  destruct (String.eqb_spec g3 "") as [|_]; [contradiction|].
  reflexivity.
Qed.

Lemma releaseRe_skip (pre s : string) (r : list string) :
  has_digit pre = false ->
  releaseRe_matchHere s = Some r ->
  releaseRe_FindStringSubmatch (pre +:+ s) = r.
Proof.
  unfold has_digit. intros Hpre Hs. induction pre as [|c pre IH].
  - change ("" +:+ s) with s. destruct s; cbn [releaseRe_FindStringSubmatch];
      now rewrite Hs.
  - cbn in Hpre. apply orb_false_iff in Hpre as [Hc Hpre].
    change (String c pre +:+ s) with (String c (pre +:+ s)).
    cbn [releaseRe_FindStringSubmatch].
    unfold releaseRe_matchHere at 1. cbn [digitRun]. rewrite Hc.
    cbn [String.eqb]. apply (IH Hpre).
Qed.

Lemma releaseRe_shape (s : string) :
  releaseRe_FindStringSubmatch s = [] \/
  exists whole g1 g2 g3, releaseRe_FindStringSubmatch s = [whole; g1; g2; g3].
Proof.
  assert (Hhere : forall s r, releaseRe_matchHere s = Some r ->
                    exists whole g1 g2 g3, r = [whole; g1; g2; g3]).
  { clear s. intros s r. unfold releaseRe_matchHere.
    destruct (digitRun s) as [g1 r1]. destruct (String.eqb g1 ""); [discriminate|].
    destruct r1 as [|c r1]; [discriminate|].
    destruct (Ascii.eqb_spec c "R") as [->|Hc];
      [|destruct c as [[] [] [] [] [] [] [] []]; try discriminate;
        now contradiction Hc].
    destruct (digitRun r1) as [g2 r2]. destruct (String.eqb g2 ""); [discriminate|].
    destruct r2 as [|c r2]; [discriminate|].
    destruct (Ascii.eqb_spec c "C") as [->|Hc];
      [|destruct c as [[] [] [] [] [] [] [] []]; try discriminate;
        now contradiction Hc].
    destruct (digitRun r2) as [g3 r3]. destruct (String.eqb g3 ""); [discriminate|].
    intros [= <-]. eauto. }
  induction s as [|c s IH]; cbn [releaseRe_FindStringSubmatch].
  - destruct (releaseRe_matchHere "") as [r|] eqn:Hr; [right; eauto|now left].
  - destruct (releaseRe_matchHere (String c s)) as [r|] eqn:Hr; [right; eauto|exact IH].
Qed.

(** X17. [parseGaussDBVersion] always returns: the guard [len(r) < 3] lets
    a slice of three elements through, for which [r[3]] is out of range,
    but the matcher returns no element or four. *)
Theorem parseGaussDBVersion_returns (subMatches : list string) :
  exists version, parseGaussDBVersion subMatches = Normal version.
Proof.
  unfold parseGaussDBVersion.
  destruct (Nat.ltb_spec (length subMatches) 3) as [|Hlen]; [now eexists|].
  destruct subMatches as [|m0 [|m1 [|m2 more]]]; try (simpl in Hlen; lia).
  cbn [index lookup list_lookup mbind outcome_bind].
  destruct (String.eqb m2 ""); [now eexists|].
  destruct (releaseRe_shape m2) as [->|(whole & g1 & g2 & g3 & ->)];
    now eexists.
Qed.

(** X18. On a third element that holds, after bytes that are no digits,
    three numbers below 2^63 written [n1 R n2 C n3], each with any number
    of leading zeros, [parseGaussDBVersion] returns the three numbers in
    decimal without the leading zeros, separated by dots. *)
Theorem parseGaussDBVersion_release (m0 m1 pre tail : string) (more : list string)
    (n1 n2 n3 : Z) (k1 k2 k3 : nat) :
  (0 <= n1 < 2 ^ 63)%Z -> (0 <= n2 < 2 ^ 63)%Z -> (0 <= n3 < 2 ^ 63)%Z ->
  has_digit pre = false -> starts_with_digit tail = false ->
  parseGaussDBVersion
    (m0 :: m1 ::
     (pre +:+ (zeros k1 +:+ Sprint_int n1) +:+ "R" +:+ (zeros k2 +:+ Sprint_int n2)
      +:+ "C" +:+ (zeros k3 +:+ Sprint_int n3) +:+ tail) :: more)
  = Normal (Sprint_int n1 +:+ "." +:+ Sprint_int n2 +:+ "." +:+ Sprint_int n3).
Proof.
  intros Hn1 Hn2 Hn3 Hpre Htail.
  destruct (padded_digits k1 n1 (proj1 Hn1)) as (A1 & N1 & V1).
  destruct (padded_digits k2 n2 (proj1 Hn2)) as (A2 & N2 & V2).
  destruct (padded_digits k3 n3 (proj1 Hn3)) as (A3 & N3 & V3).
  pose proof (releaseRe_matchHere_groups _ _ _ tail A1 N1 A2 N2 A3 N3 Htail) as Hhere.
  pose proof (releaseRe_skip pre _ _ Hpre Hhere) as Hfind.
  unfold parseGaussDBVersion.
  cbn [length Nat.ltb Nat.leb index lookup list_lookup mbind outcome_bind].
  rewrite Hfind.
  set (g1 := zeros k1 +:+ Sprint_int n1) in *.
  set (g2 := zeros k2 +:+ Sprint_int n2) in *.
  set (g3 := zeros k3 +:+ Sprint_int n3) in *.
  destruct (String.eqb_spec (pre +:+ g1 +:+ "R" +:+ g2 +:+ "C" +:+ g3 +:+ tail) "")
    as [Hempty|_].
  { exfalso. destruct pre as [|c pre]; [|discriminate Hempty].
    destruct g1 as [|c g1]; [now contradiction N1|discriminate Hempty]. }
  cbn [length Nat.ltb Nat.leb index lookup list_lookup mbind outcome_bind mret outcome_ret].
  rewrite (Atoi_digits g1 n1 A1 N1 V1), (Atoi_digits g2 n2 A2 N2 V2),
    (Atoi_digits g3 n3 A3 N3 V3).
  rewrite !Z.min_r by lia. reflexivity.
Qed.

(** ** The loader of definitions *)

Section LoaderProperties.
Context {D : Type}.
Variable path_Join : string -> string -> string.
Variable ParseConfig : list byte -> string -> gmap string (Loaded D) + error.

Local Abbreviation LoadConfig := (LoadConfig path_Join ParseConfig).
Local Abbreviation loadedFiles := (loadedFiles path_Join ParseConfig).

Lemma map_fold_insert_fmap (f : Loaded D -> Loaded D)
    (queries singleQueries : gmap string (Loaded D)) :
  map_fold (fun name query queries => <[name := f query]> queries)
    queries singleQueries
  = (f <$> singleQueries) ∪ queries.
Proof.
  apply (map_fold_weak_ind
           (fun r m => r = (f <$> m) ∪ queries)).
  - now rewrite fmap_empty, (left_id_L ∅ (∪)).
  - intros name query m r _ ->.
    now rewrite fmap_insert, insert_union_l.
Qed.

Lemma mergeLoop_lookup (confFiles : list (gmap string (Loaded D) + error)) :
  forall (queries : gmap string (Loaded D)) (c : Z) (name : string) (q : Loaded D),
    mergeLoop confFiles queries c !! name = Some q <->
    (exists i single q0,
        oks confFiles !! i = Some single /\ single !! name = Some q0 /\
        (forall j later, (i < j)%nat -> oks confFiles !! j = Some later ->
                         later !! name = None) /\
        q = setRank (c + Z.of_nat i + 1) q0)
    \/ ((forall j later, oks confFiles !! j = Some later -> later !! name = None)
        /\ queries !! name = Some q).
Proof.
  induction confFiles as [|[single|err] rest IH]; intros queries c name q.
  - cbn [mergeLoop oks omap]. split.
    + intros Hq. right. split; [|exact Hq]. intros j later Hj. discriminate Hj.
    + intros [(i & s & q0 & Hi & _)|[_ Hq]]; [discriminate Hi|exact Hq].
  - cbn [mergeLoop]. rewrite map_fold_insert_fmap, IH.
    change (oks (inl single :: rest)) with (single :: oks rest).
    split.
    + intros [(i & s & q0 & Hi & Hs & Hlater & ->)|[Hnone Hq]].
      * left. exists (S i), s, q0. split; [exact Hi|]. split; [exact Hs|]. split.
        -- intros [|j] later Hj Hat; [lia|]. apply (Hlater j); [lia|exact Hat].
        -- f_equal. lia.
      * apply lookup_union_Some_raw in Hq as [Hq|[Hsingle Hq]].
        -- apply lookup_fmap_Some in Hq as (q0 & <- & Hq0).
           left. exists 0%nat, single, q0. split; [reflexivity|].
           split; [exact Hq0|]. split.
           ++ intros [|j] later Hj Hat; [lia|]. now apply (Hnone j).
           ++ f_equal. lia.
        -- right. split; [|exact Hq].
           intros [|j] later Hat; [|now apply (Hnone j)].
           injection Hat as <-. rewrite lookup_fmap in Hsingle.
           now destruct (single !! name).
    + intros [(i & s & q0 & Hi & Hs & Hlater & ->)|[Hnone Hq]].
      * destruct i as [|i].
        -- injection Hi as <-. right. split.
           ++ intros j later Hat. apply (Hlater (S j)); [lia|exact Hat].
           ++ apply lookup_union_Some_raw. left.
              rewrite lookup_fmap, Hs. cbn. f_equal. f_equal. lia.
        -- left. exists i, s, q0. split; [exact Hi|]. split; [exact Hs|]. split.
           ++ intros j later Hj Hat. apply (Hlater (S j)); [lia|exact Hat].
           ++ f_equal. lia.
      * right. split.
        -- intros j later Hat. now apply (Hnone (S j)).
        -- apply lookup_union_Some_raw. right. split; [|exact Hq].
           rewrite lookup_fmap, (Hnone 0%nat single eq_refl). reflexivity.
  - cbn [mergeLoop]. apply IH.
Qed.

Lemma loadedFiles_oks (configPath : string) (files : list DirEntry) :
  oks (map snd
         (List.filter (fun conf => negb (fst conf))
            (map (fun conf =>
                    let '(mkDirEntry name isDir at_path) := conf in
                    (skipped name isDir,
                     LoadConfig (path_Join configPath name) at_path))
                 files)))
  = loadedFiles configPath files.
Proof.
  unfold loadedFiles. induction files as [|[name isDir at_path] files IH]; [reflexivity|].
  cbn [map List.filter omap list_omap fst].
  destruct (skipped name isDir); cbn [negb fst]; [exact IH|].
  cbn [map snd]. unfold oks at 1. cbn [omap list_omap].
  destruct (LoadConfig (path_Join configPath name) at_path);
    [f_equal|]; exact IH.
Qed.

Lemma setRank_priority (c : Z) (query : Loaded D) :
  (0 <= c)%Z -> Priority (setRank c query) <> 0%Z.
Proof.
  intros Hc. unfold setRank.
  destruct (Z.eqb_spec (Priority query) 0) as [_|Hne]; [cbn; lia|exact Hne].
Qed.

(** X19. On a directory that can be listed [LoadConfig] returns no error,
    whatever maps or errors [ParseConfig] returns on its files (a panic
    inside [ParseConfig] is not part of this reading). A name is in the map it returns exactly when
    one of the files that are kept and that load declares it; its
    definition is the one of the last such file, in the order of the
    listing, with the priority 100 plus the rank of that file among the
    files that load when it had priority 0. No definition of the map has
    priority 0. *)
Theorem LoadConfig_directory (configPath : string) (files : list DirEntry) :
  exists queries,
    LoadConfig configPath (Dir files) = inl queries /\
    (forall name q,
       queries !! name = Some q <->
       exists i single q0,
         loadedFiles configPath files !! i = Some single /\
         single !! name = Some q0 /\
         (forall j later, (i < j)%nat ->
            loadedFiles configPath files !! j = Some later ->
            later !! name = None) /\
         q = setRank (Z.of_nat i + 1) q0) /\
    (forall name q, queries !! name = Some q -> Priority q <> 0%Z).
Proof.
  eexists. split; [reflexivity|].
  assert (Hlookup : forall name q,
    mergeLoop
      (map snd
         (List.filter (fun conf => negb (fst conf))
            (map (fun conf =>
                    let '(mkDirEntry name isDir at_path) := conf in
                    (skipped name isDir,
                     LoadConfig (path_Join configPath name) at_path))
                 files))) ∅ 0 !! name = Some q <->
    exists i single q0,
      loadedFiles configPath files !! i = Some single /\
      single !! name = Some q0 /\
      (forall j later, (i < j)%nat ->
         loadedFiles configPath files !! j = Some later ->
         later !! name = None) /\
      q = setRank (Z.of_nat i + 1) q0).
  { intros name q. rewrite mergeLoop_lookup, loadedFiles_oks.
    change (0 + Z.of_nat ?i + 1)%Z with (Z.of_nat i + 1)%Z.
    split; [|intros Hex; left; exact Hex].
    intros [Hex|[_ Hempty]]; [exact Hex|].
    rewrite lookup_empty in Hempty. discriminate. }
  split; [exact Hlookup|].
  intros name q Hq. apply Hlookup in Hq as (i & single & q0 & _ & _ & _ & ->).
  apply setRank_priority. lia.
Qed.

End LoaderProperties.

(** ** The further properties on concrete data *)

Section FurtherRuns.
Import Sample.
Import Scenarios.

Local Abbreviation procRows := (procRows MonitDB MappedMETRIC GetColumn).
Local Abbreviation newMetric := (newMetric MappedMETRIC).
Local Abbreviation getMetric := (getMetric MonitDB MappedMETRIC GetColumn).

Lemma procRows_short_row_witness :
  procRows pg_database pg_database_columnNames pg_database_columnIdx
    [VString "postgres"]
  = Panic (PanicError (index_out_of_range 1 1)).
Proof.
  apply (procRows_short_row MonitDB MappedMETRIC GetColumn pg_database
           pg_database_columnNames pg_database_columnIdx [VString "postgres"]).
  - split; [intros Hne; now contradiction Hne|]. repeat constructor.
  - simpl. lia.
Defined.

Lemma getMetric_short_row_witness :
  exists db',
    getMetric server_old pg_database_old
    = (db', Panic (PanicError (index_out_of_range 1 1))) /\
    received db' = [select_old; select_main].
Proof.
  pose proof (getMetric_short_row MonitDB MappedMETRIC GetColumn
                server_old pg_database_old [] [row_good] [VString "postgres"])
    as Hrun.
  remember (@execAll sql server_old
              (SQL <$> List.filter enabled (Queries pg_database_old)))
    as run eqn:Hexec in Hrun.
  vm_compute in Hexec. subst run. cbv beta iota zeta in Hrun.
  eexists. split.
  - apply Hrun.
    + reflexivity.
    + constructor.
    + split; [intros Hne; now contradiction Hne|]. repeat constructor.
    + simpl. lia.
  - reflexivity.
Defined.

Lemma getMetric_same_columns_witness :
  exists db' samples,
    getMetric server pg_database = (db', Normal samples) /\
    received db' = [select_main] /\
    (length samples <= 3)%nat.
Proof.
  pose proof (getMetric_same_columns MonitDB MappedMETRIC GetColumn
                server pg_database pg_database_columnNames
                ltac:(discriminate)) as Hrun.
  remember (@execAll sql server
              (SQL <$> List.filter enabled (Queries pg_database)))
    as run eqn:Hexec in Hrun.
  vm_compute in Hexec. subst run. cbv beta iota zeta in Hrun.
  destruct Hrun as (samples & Hrun & Hlen).
  - intros rows [Hrows|[]]. injection Hrows as <-. reflexivity.
  - eexists. exists samples. split; [exact Hrun|]. split; [reflexivity|exact Hlen].
Defined.

Lemma procRows_counts_witness :
  exists samples errs,
    procRows pg_database pg_database_columnNames pg_database_columnIdx row_bad
    = Normal (samples, errs) /\
    (length samples + length errs <= 3)%nat.
Proof.
  eexists. eexists. split; [vm_compute; reflexivity|].
  eapply (procRows_counts MonitDB MappedMETRIC GetColumn pg_database
            pg_database_columnNames pg_database_columnIdx row_bad).
  vm_compute. reflexivity.
Defined.

Lemma procRows_sample_origin_witness :
  exists samples errs labels,
    procRows pg_database pg_database_columnNames pg_database_columnIdx row_good
    = Normal (samples, errs) /\
    length labels = 1%nat /\
    forall m, In m samples ->
      exists j name v c value,
        pg_database_columnNames !! j = Some name /\ row_good !! j = Some v /\
        GetColumn pg_database name (serverLabels MonitDB) = Some c /\
        eligible MappedMETRIC c /\
        DbToFloat64 v = (value, true) /\
        MustNewConstMetric (PrometheusDesc c) (PrometheusType c) value labels
        = Normal m.
Proof.
  assert (Hrun : exists samples errs,
             procRows pg_database pg_database_columnNames pg_database_columnIdx
               row_good = Normal (samples, errs)).
  { eexists. eexists. vm_compute. reflexivity. }
  destruct Hrun as (samples & errs & Hrun).
  destruct (procRows_sample_origin MonitDB MappedMETRIC GetColumn pg_database
              pg_database_columnNames pg_database_columnIdx row_good
              samples errs Hrun) as (labels & Hlen & Hall).
  exists samples, errs, labels. split; [exact Hrun|]. split; [exact Hlen|exact Hall].
Defined.

Lemma newMetric_never_parse_error_witness :
  exists m,
    newMetric pg_database (Some numbackends_col) "numbackends" VNil ["postgres"]
    = (Some m, None) /\
    val m = NaN.
Proof.
  destruct (newMetric_never_parse_error MappedMETRIC pg_database numbackends_col
              "numbackends" VNil ["postgres"]) as [Hrun Hnan].
  - repeat split.
  - simpl. auto 10.
  - eexists. split; [rewrite Hrun; vm_compute; reflexivity|reflexivity].
Defined.

Lemma DbToString_compact_reads_witness :
  valid_value (VTime (mkTime (-5) 7000000 0)) /\
  option_map Z.of_int
    (NilZero.int_of_string (DbToString (VTime (mkTime (-5) 7000000 0)) false).1)
  = Some (-5007)%Z.
Proof.
  assert (Hvalid : valid_value (VTime (mkTime (-5) 7000000 0))) by (simpl; lia).
  split; [exact Hvalid|].
  exact (DbToString_compact_reads (mkTime (-5) 7000000 0) Hvalid).
Defined.

Lemma parseCSV_tags_witness :
  parseCSV " a, b ,,c " = ["a"; "b"; "c"] /\
  "b" <> "" /\
  exists p, In p (Split (TrimSpace " a, b ,,c ") ",") /\ "b" = TrimSpace p.
Proof.
  split; [reflexivity|].
  apply (parseCSV_tags " a, b ,,c " "b"). right. left. reflexivity.
Defined.

Lemma parseCSV_Join_witness :
  parseCSV "a,b c" = ["a"; "b c"].
Proof.
  apply (parseCSV_Join ["a"; "b c"]).
  repeat (constructor; [split; reflexivity|]). constructor.
Defined.

Lemma parseConstLabels_entries_witness :
  exists labels : Labels,
    parseConstLabels " a=1, b = 2 ,c=,d=3=4,a=5" = Some labels /\
    labels !! "a" = Some "5" /\ labels !! "b" = Some "2" /\
    labels !! "c" = None /\ labels !! "d" = None /\
    labels <> ∅ /\
    forall key value, labels !! key = Some value -> key <> "" /\ value <> "".
Proof.
  eexists. split; [vm_compute; reflexivity|].
  split; [reflexivity|]. split; [reflexivity|].
  split; [reflexivity|]. split; [reflexivity|].
  eapply (parseConstLabels_entries " a=1, b = 2 ,c=,d=3=4,a=5").
  vm_compute. reflexivity.
Defined.

Lemma parseConstLabels_Join_witness :
  parseConstLabels "a=1,b=2,a=3"
  = Some (<["a" := "3"]> (<["b" := "2"]> (<["a" := "1"]> (∅ : Labels)))).
Proof.
  apply (parseConstLabels_Join [("a", "1"); ("b", "2"); ("a", "3")]).
  repeat (constructor; [repeat split; reflexivity|]). constructor.
Defined.

Lemma parseGaussDBVersion_release_witness :
  parseGaussDBVersion ["GaussDB Kernel V500R001C20"; "GaussDB"; "500R001C20"]
  = Normal "500.1.20".
Proof.
  apply (parseGaussDBVersion_release "GaussDB Kernel V500R001C20" "GaussDB"
           "" "" [] 500 1 20 0 2 0); try lia; reflexivity.
Defined.

(** Of the four files of the directory the second is skipped and the
    third does not load: [pg] comes from the fourth with the rank 2, and
    [pg_lock] from the first with its own priority. *)
Example conf_dir_loaded :
  exists queries,
    LoadConfig join_sample parse_sample "conf" conf_dir = inl queries /\
    queries !! "pg" = Some (mkLoaded 102 "second") /\
    queries !! "pg_lock" = Some (mkLoaded 50 "first").
Proof. eexists. split; [reflexivity|]. split; vm_compute; reflexivity. Qed.

End FurtherRuns.
